(** * Gucli: a GUI front-end for a command line tool, driven by an ini file

    A shallow embedding of [gucli.pyw]: the argument-schema compiler
    ([select_parser_group], [add_argument], [build_arg_parser]), the command
    assembler and process runner ([construct_and_run], [run_command]) and
    the schema loader in [main].

    Conventions of the embedding.
    - A Python [str] is a [string]; a character stands for a code point
      below 256.
    - A value held by the parsed-argument dictionary is a [PyVal].
    - A raised exception is the [Raise] case of [result]; code with effects
      (files, message boxes, the console, the spawned process) runs in the
      state-and-exception monad [IO] over a [World].
    - What the script asks of its libraries and of the operating system
      (configparser's reading of the ini text, argparse behind Gooey, the
      subprocess, standard output) is read from an [Env]: a call may
      return or raise, and the theorems hold whichever it does. *)

From Stdlib Require Import ZArith Ascii.
From stdpp Require Import base option list gmap strings pretty.

Local Open Scope Z_scope.

(* ================================================================== *)
(** * Exceptions and results *)

Inductive exn : Type :=
  | KeyError (key : string)
  | TypeError (msg : string)
  | LibraryError (msg : string)
  | SystemExit (code : Z).

Inductive result (A : Type) : Type :=
  | Ok (a : A)
  | Raise (e : exn).
Arguments Ok {A} a.
Arguments Raise {A} e.

#[global] Instance result_ret : MRet result := @Ok.
#[global] Instance result_bind : MBind result := λ A B f m,
  match m with
  | Ok a => f a
  | Raise e => Raise e
  end.

(** A [for] loop that threads an accumulator and stops at the first
    exception. *)
Fixpoint for_each {A B : Type} (body : B → A → result B) (acc : B) (l : list A)
    : result B :=
  match l with
  | [] => Ok acc
  | x :: l' => acc' ← body acc x; for_each body acc' l'
  end.

(* ================================================================== *)
(** * Python strings *)

Module Str.

Definition chr (n : N) : ascii := ascii_of_N n.
Definition ord (c : ascii) : N := N_of_ascii c.

(** The quote characters and the backslash. *)
Definition dquote : ascii := chr 34.
Definition squote : ascii := chr 39.
Definition backslash : ascii := chr 92.

(** [str.isspace] on one code point below 256. *)
Definition isspace (c : ascii) : bool :=
  let n := ord c in
  ((9 <=? n) && (n <=? 13) || (28 <=? n) && (n <=? 32)
   || (n =? 133) || (n =? 160))%N.

(** [str.isprintable] on one code point below 256. *)
Definition isprintable (c : ascii) : bool :=
  let n := ord c in
  ((32 <=? n) && (n <? 127) || (161 <=? n) && negb (n =? 173))%N.

Fixpoint contains_char (c : ascii) (s : string) : bool :=
  match s with
  | EmptyString => false
  | String a s' => bool_decide (a = c) || contains_char c s'
  end.

(** [s.lstrip()], [s.rstrip()] and [s.strip()]. *)
Fixpoint lstrip (s : string) : string :=
  match s with
  | EmptyString => EmptyString
  | String a s' => if isspace a then lstrip s' else s
  end.
Definition rstrip (s : string) : string := String.rev (lstrip (String.rev s)).
Definition strip (s : string) : string := rstrip (lstrip s).

(** [s.split(sep)] for a one-character separator: the pieces between the
    separators, empty pieces included. *)
Fixpoint split_go (sep : ascii) (cur : string) (s : string) : list string :=
  match s with
  | EmptyString => [String.rev cur]
  | String a s' =>
      if bool_decide (a = sep) then String.rev cur :: split_go sep EmptyString s'
      else split_go sep (String a cur) s'
  end.
Definition split (sep : ascii) (s : string) : list string :=
  split_go sep EmptyString s.

(** [sep.join(l)]. *)
Definition join (sep : string) (l : list string) : string :=
  String.concat sep l.

(** [s.rpartition(sep)[0]] for a one-character separator: what comes
    before the last separator, and the empty string without one. *)
Fixpoint rpartition_head (sep : ascii) (s : string) : string :=
  match s with
  | EmptyString => EmptyString
  | String a s' =>
      if contains_char sep s' then String a (rpartition_head sep s')
      else EmptyString
  end.

(** [s.replace(old, new)] for a non-empty [old]: every occurrence, left
    to right, without overlap. [skip] counts the characters of a match
    still to be dropped. *)
Fixpoint replace_go (old new : string) (skip : nat) (s : string) : string :=
  match s with
  | EmptyString => EmptyString
  | String a s' =>
      match skip with
      | S k => replace_go old new k s'
      | O =>
          if String.prefix old s
          then new +:+ replace_go old new (Nat.pred (String.length old)) s'
          else String a (replace_go old new O s')
      end
  end.
Definition replace (old new : string) (s : string) : string :=
  replace_go old new O s.

(** [repr(s)] of a [str]. *)
Definition hex_digit (n : N) : ascii :=
  (if n <? 10 then chr (48 + n) else chr (87 + n))%N.
Definition repr_char (quote c : ascii) : string :=
  if bool_decide (c = quote) || bool_decide (c = backslash)
  then String backslash (String c EmptyString)
  else if bool_decide (c = chr 9) then "\t"
  else if bool_decide (c = chr 10) then "\n"
  else if bool_decide (c = chr 13) then "\r"
  else if isprintable c then String c EmptyString
  else String backslash
         (String "x"%char
            (String (hex_digit (ord c / 16)) (String (hex_digit (ord c mod 16)) EmptyString))).
Fixpoint repr_body (quote : ascii) (s : string) : string :=
  match s with
  | EmptyString => EmptyString
  | String a s' => repr_char quote a +:+ repr_body quote s'
  end.
Definition repr (s : string) : string :=
  let quote :=
    if contains_char squote s && negb (contains_char dquote s)
    then dquote else squote in
  String quote (repr_body quote s +:+ String quote EmptyString).

End Str.

(* ================================================================== *)
(** * Values of the parsed-argument dictionary *)

Inductive PyVal : Type :=
  | PNone
  | PBool (b : bool)
  | PStr (s : string)
  | PList (l : list string).

#[global] Instance PyVal_eq_dec : EqDecision PyVal.
Proof. solve_decision. Defined.

(** The truth value Python gives a value in [if v:]. *)
Definition truthy (v : PyVal) : bool :=
  match v with
  | PNone => false
  | PBool b => b
  | PStr s => bool_decide (s ≠ "")
  | PList l => bool_decide (l ≠ [])
  end.

(** [f'{v}'], that is [str(v)]. *)
Definition py_format (v : PyVal) : string :=
  match v with
  | PNone => "None"
  | PBool true => "True"
  | PBool false => "False"
  | PStr s => s
  | PList l => "[" +:+ Str.join ", " (Str.repr <$> l) +:+ "]"
  end.

(** [a + v] for a [str] [a]: defined on a [str] only. *)
Definition str_add (a : string) (v : PyVal) : result string :=
  match v with
  | PStr s => Ok (a +:+ s)
  | _ => Raise (TypeError "can only concatenate str to str")
  end.

(** [d.get(k, fallback)] and [d[k]] on a dictionary. *)
Definition dict_get {V : Type} (d : gmap string V) (k : string) (fallback : V) : V :=
  default fallback (d !! k).
Definition dict_item {V : Type} (d : gmap string V) (k : string) : result V :=
  match d !! k with
  | Some v => Ok v
  | None => Raise (KeyError k)
  end.


(* ================================================================== *)
(** * Module constants *)

Definition GUI_GENERATE_DEFAULT_ICON : bool := true.

(** The default ini file, written when none exists. *)
Definition DEFAULT_INI_FILE : string :=
  "
; The root of the app sets the application general setup (command line, title etc.)
; The section name MUST be 'root'
[root]
; 'command' key is mandatory.
command=python -m json.tool
; 'about' key is optional, but please provide something meaningful.
; Gooey supports about 4 lines of description. indent the other lines.
about=A json pretty print tool. It Can also validate integrity.
    This can be a multi-line help description
    Using indentation
; Optional: help flag: the command help flag. usually '--help' or '-h'.
; it will be used for executing the command's own help message
help_flag=--help

; Arguments section:
;
; Each command line parameter has en entry (spawned by order)
; 'flag': the flag to use. optional. (no 'flag' for positional arguments)
; positional arguments are required parameters, flags are optional.
; 'type' key: flag type, and argument hint.
; The supported types are:
;       boolean (default),
;       string, integer,
;       file (read),
;       dir (read),
;       save (file name),
;       choice (require 'choices' option)
; 'help': A help string, new lines can be used with indentation.

; Example: full argument qualification.
; The section name is used as the argument title (for the GUI)
; 'mutex' is used to group mutually exclusive flags, using common 'mutex' key
; Look for other 'mutex' keys to get the idea.

[Indentation Width]
flag=--indent
type=string
help=Separate items with newlines and use this number of spaces for indentation.
mutex=IndentSpaceOrTab

; The indentation can be numeric
;
;[Indentation width]
;flag=--indent
;type=integer
;default=2
;help=Separate items with newlines and use this number of spaces for indentation.
;mutex=IndentSpaceOrTab

; This is just for the sake of completeness. do not set a value
[Test Choice (Demo)]
flag=--test
type=choice
help=Test choices: For completeness. Do not set.
    for json.tool to work, this flag should not be set
choices=One, Two, Three

; Example: minimal argument qualification (type defaults to boolean)
[Sort Keys]
flag=--sort-keys
help=Sort the output of dictionaries alphabetically by key

# Specify the boolean type explicitly, group using 'mutex' key
[Tab]
flag=--tab
type=boolean
help=Separate items with newlines and use tabs for indentation
mutex=IndentSpaceOrTab

[No Indent]
flag=--no-indent
type=boolean
help=No indentation at all
mutex=IndentSpaceOrTab

[Compact]
flag=--compact
type=boolean
help=Comact json, much less readable, shorter for serialization
mutex=IndentSpaceOrTab


; Positional, mandatory argument #1 (required, multiple file selection is enabled)
; Note that the " +:+ String Str.dquote ("file" +:+ String Str.dquote " widget supports multiple file selection.
; the file names are give as a space separated string to the command.
[Infile]
type=file
help=Input file name (required)

; positional #2
; The '--' default serves as 'no argument' here, so this argument becomes optional
[Outfile]
type=save
help=Output file name. Optional. can be equal to Input File name
default=--

").

Definition SHOW_COMMAND_HELP : string := "Show command's original help page".

(* ================================================================== *)
(** * The configuration: configparser.ConfigParser(default_section='root')

    The options of the default section [root] and, in file order, every
    other section with its own options. An option value is held as [get]
    returns it, that is with configparser's interpolation of [%] sequences
    done. *)

Record ConfigParser : Type := {
  _defaults : gmap string string;
  _sections : list (string * gmap string string)
}.

Definition default_section : string := "root".

(** [config.defaults()] and [config.sections()]. *)
Definition defaults (config : ConfigParser) : gmap string string :=
  _defaults config.
Definition sections (config : ConfigParser) : list string :=
  (_sections config).*1.

Fixpoint assoc {V : Type} (k : string) (l : list (string * V)) : option V :=
  match l with
  | [] => None
  | (k', v) :: l' => if decide (k' = k) then Some v else assoc k l'
  end.

(** [config[section]]: the section's view, in which an option the section
    does not set is looked up in the default section. *)
Definition getitem (config : ConfigParser) (section : string)
    : result (gmap string string) :=
  match assoc section (_sections config) with
  | Some options => Ok (options ∪ _defaults config)
  | None =>
      if decide (section = default_section) then Ok (_defaults config)
      else Raise (KeyError section)
  end.

(** [proxy.get(option, fallback)] with a [str] fallback; with the fallback
    [None] it is the lookup [proxy !! option] itself. *)
Definition proxy_get (proxy : gmap string string) (option fallback : string)
    : string :=
  default fallback (proxy !! option).

(** An option value, a [str] or [None], as a Python value. *)
Definition opt_val (o : option string) : PyVal :=
  match o with
  | Some s => PStr s
  | None => PNone
  end.

(* ================================================================== *)
(** * The argument parser under construction (GooeyParser over argparse)

    The parser records, in call order, every [add_argument] it has taken,
    with the container it was called on (the parser itself or one of its
    mutually exclusive groups), the primary argument and the keyword
    dictionary. A group is named by its creation rank. Whether argparse
    takes an argument or raises is for the environment to say. *)

Inductive Container : Type :=
  | GlobalParser
  | MutexGroup (g : nat).

#[global] Instance Container_eq_dec : EqDecision Container.
Proof. solve_decision. Defined.

Record Argument : Type := {
  arg_container : Container;
  arg_name : string;
  arg_kwargs : gmap string PyVal
}.

Record Parser : Type := {
  parser_description : string;
  parser_groups : nat;
  parser_arguments : list Argument
}.

Definition GooeyParser (description : string) : Parser :=
  {| parser_description := description;
     parser_groups := 0;
     parser_arguments := [] |}.

(** [parser.add_mutually_exclusive_group()]: a new group and the parser
    that holds it. *)
Definition add_mutually_exclusive_group (parser : Parser) : nat * Parser :=
  (parser_groups parser,
   {| parser_description := parser_description parser;
      parser_groups := S (parser_groups parser);
      parser_arguments := parser_arguments parser |}).

(** The parser after [item.add_argument(primary_argument, **arg_dict)]
    has taken the argument. *)
Definition record_argument (item : Container) (primary_argument : string)
    (arg_dict : gmap string PyVal) (parser : Parser) : Parser :=
  {| parser_description := parser_description parser;
     parser_groups := parser_groups parser;
     parser_arguments :=
       parser_arguments parser ++
       [{| arg_container := item;
           arg_name := primary_argument;
           arg_kwargs := arg_dict |}] |}.

(* ================================================================== *)
(** * The world and the environment *)

Inductive Dialog : Type :=
  | ShowInfo (title text : string)
  | ShowError (title : string) (e : exn) (details : option string).

Record World : Type := {
  files : gmap string string;
  console : list string;
  dialogs : list Dialog
}.

(** A subprocess run to its end: the lines it wrote (decoded), its wait status,
    the elapsed time as formatted with two decimals, and the files it
    leaves. *)
Record Process : Type := {
  proc_stdout : list string;
  proc_wait : Z;
  proc_elapsed : string;
  proc_files : gmap string string
}.

Record Env : Type := {
  (** [Path(__file__).name] and [str(Path(__file__).parent)] *)
  script_name : string;
  script_parent : string;
  (** [Path(sys.executable).stem] *)
  executable_stem : string;
  (** [config.read_file]: configparser's reading of an ini text *)
  read_file : string → result ConfigParser;
  (** [base64.decodebytes] *)
  decodebytes : string → string;
  (** [item.add_argument(name, **kwargs)] on a parser as it stands:
      argparse takes the argument or raises *)
  item_add_argument :
    Parser → Container → string → gmap string PyVal → result unit;
  (** [vars(parser.parse_args())]: what argparse makes of the user's
      entries for the parser as declared, or the exception it leaves by *)
  parse_args : Parser → result (gmap string PyVal);
  (** [subprocess.Popen(cmd, shell=True, ...)] run to its end on the
      files as they are, or the exception it raises *)
  popen : string → gmap string string → result Process;
  (** writing one [print] to standard output, which may raise (an
      encoding error) *)
  stdout_write : string → result unit
}.

Definition IO (A : Type) : Type := World → result A * World.

#[global] Instance IO_ret : MRet IO := λ A a w, (Ok a, w).
#[global] Instance IO_bind : MBind IO := λ A B f m w,
  match m w with
  | (Ok a, w') => f a w'
  | (Raise e, w') => (Raise e, w')
  end.

Definition lift {A : Type} (r : result A) : IO A := λ w, (r, w).
Definition raise {A : Type} (e : exn) : IO A := λ w, (Raise e, w).

(** [try: body except Exception as e: handler(e)]; [SystemExit] is no
    [Exception] and passes through. *)
Definition try_except {A : Type} (body : IO A) (handler : exn → IO A) : IO A :=
  λ w,
    match body w with
    | (Raise (SystemExit code), w') => (Raise (SystemExit code), w')
    | (Raise e, w') => handler e w'
    | (Ok a, w') => (Ok a, w')
    end.

Fixpoint for_each_io {A B : Type} (body : B → A → IO B) (acc : B) (l : list A)
    : IO B :=
  match l with
  | [] => mret acc
  | x :: l' => acc' ← body acc x; for_each_io body acc' l'
  end.

Definition print (env : Env) (line : string) : IO unit := λ w,
  match stdout_write env line with
  | Ok _ =>
      (Ok (), {| files := files w;
                 console := console w ++ [line];
                 dialogs := dialogs w |})
  | Raise e => (Raise e, w)
  end.

Definition show_dialog (d : Dialog) : IO unit := λ w,
  (Ok (), {| files := files w;
             console := console w;
             dialogs := dialogs w ++ [d] |}).

Definition path_exists (path : string) : IO bool := λ w,
  (Ok (bool_decide (is_Some (files w !! path))), w).

Definition write_file (path text : string) : IO unit := λ w,
  (Ok (), {| files := <[path := text]> (files w);
             console := console w;
             dialogs := dialogs w |}).

Definition open_read (path : string) : IO string := λ w,
  match files w !! path with
  | Some text => (Ok text, w)
  | None => (Raise (LibraryError "FileNotFoundError"), w)
  end.

(** [sys.exit(code)] raises [SystemExit]; what the operating system then
    reports is [exit_status]. *)
Definition sys_exit {A : Type} (code : Z) : IO A := raise (SystemExit code).

(** The exit status of the interpreter that ends by an exception, as a
    POSIX system reports it: the low eight bits of the code of a
    [SystemExit], and 1 for any other exception. *)
Definition exit_status (e : exn) : Z :=
  match e with
  | SystemExit code => code mod 256
  | _ => 1
  end.

(** [item.add_argument(primary_argument, **arg_dict)]: argparse takes the
    argument, which the parser then holds, or raises. *)
Definition container_add_argument (env : Env) (item : Container)
    (primary_argument : string) (arg_dict : gmap string PyVal)
    (parser : Parser) : result Parser :=
  item_add_argument env parser item primary_argument arg_dict;;
  Ok (record_argument item primary_argument arg_dict parser).

(* ================================================================== *)
(** * The script *)

Definition nl : string := String (Str.chr 10) EmptyString.

(** [error_message(exception, message=None)]: the error window, then the
    exception is raised again. Without a message the window gives the
    traceback ([details] is [None]). *)
Definition error_message {A : Type} (exception : exn) (message : option string)
    : IO A :=
  show_dialog (ShowError "Script Error" exception message);;
  raise exception.

(** [info_box(info)] *)
Definition info_box (info : string) : IO unit :=
  show_dialog (ShowInfo "Script Notice" info).

(** [select_parser_group(config, section, mutex_group_dict, parser)]: the
    container to add the section's argument to, with the dictionary and
    the parser as the call leaves them. *)
Definition select_parser_group (config : ConfigParser) (section : string)
    (mutex_group_dict : gmap string nat) (parser : Parser)
    : result (Container * gmap string nat * Parser) :=
  proxy ← getitem config section;
  let arg_mutex := proxy !! "mutex" in
  match arg_mutex with
  | Some m =>
      if truthy (PStr m) then
        let '(mutex_group_dict, parser) :=
          match mutex_group_dict !! m with
          | None =>
              let '(group, parser) := add_mutually_exclusive_group parser in
              (<[m := group]> mutex_group_dict, parser)
          | Some _ => (mutex_group_dict, parser)
          end in
        group ← dict_item mutex_group_dict m;
        Ok (MutexGroup group, mutex_group_dict, parser)
      else Ok (GlobalParser, mutex_group_dict, parser)
  | None => Ok (GlobalParser, mutex_group_dict, parser)
  end.

(** The choices of a [choice] section: the comma separated text as a list,
    without the surrounding blanks. *)
Definition parse_choices (raw_choices : string) : list string :=
  Str.strip <$> filter (λ ch, ch ≠ "") (Str.split ","%char raw_choices).

(** [add_argument(parser, config, mutex_group_dict, section)] *)
Definition add_argument (env : Env) (parser : Parser) (config : ConfigParser)
    (mutex_group_dict : gmap string nat) (section : string)
    : IO (Parser * gmap string nat) :=
  proxy ← lift (getitem config section);
  let arg_flag := proxy_get proxy "flag" "_positional" in
  let arg_type := proxy_get proxy "type" "boolean" in
  let arg_default := proxy !! "default" in
  let arg_help :=
    proxy_get proxy "help"
      (section +:+ " " +:+ arg_flag +:+ " (" +:+ arg_type +:+ ") defaults to "
       +:+ String Str.dquote
             (py_format (opt_val arg_default) +:+ String Str.dquote EmptyString)) in
  let arg_dict : gmap string PyVal :=
    <["default" := opt_val arg_default]> (<["help" := PStr arg_help]> ∅) in
  '(arg_widget, arg_action, arg_choices, arg_dict) ←
    (if decide (arg_type = "boolean") then
       mret (None, Some "store_true", None, arg_dict)
     else if decide (arg_type = "string") then
       mret (None, Some "store", None, arg_dict)
     else if decide (arg_type = "integer") then
       mret (Some "IntegerField", None, None, arg_dict)
     else if decide (arg_type = "file") then
       mret (Some "MultiFileChooser", None, None, <["nargs" := PStr "+"]> arg_dict)
     else if decide (arg_type = "save") then
       mret (Some "FileSaver", None, None, arg_dict)
     else if decide (arg_type = "dir") then
       mret (Some "DirChooser", None, None, arg_dict)
     else if decide (arg_type = "choice") then
       let raw_choices := proxy_get proxy "choices" "Yes, No" in
       mret (None, Some "store", Some (parse_choices raw_choices), arg_dict)
     else
       info_box ("Section " +:+ String Str.dquote (section +:+ String Str.dquote
                   (": Invalid type " +:+ String Str.dquote (arg_type +:+
                      String Str.dquote "; defaulting to boolean"))));;
       mret (None, Some "store_true", None, arg_dict))
    : IO (option string * option string * option (list string) * gmap string PyVal);
  let arg_dict := <["widget" := opt_val arg_widget]> arg_dict in
  let arg_dict := <["action" := opt_val arg_action]> arg_dict in
  let arg_dict :=
    match arg_choices with
    | Some (ch :: chs) => <["choices" := PList (ch :: chs)]> arg_dict
    | _ => arg_dict
    end in
  let '(primary_argument, arg_dict) :=
    if decide ("_positional" = arg_flag) then (section, arg_dict)
    else (arg_flag,
          <["required" := PBool false]> (<["dest" := PStr section]> arg_dict)) in
  '(item, mutex_group_dict, parser) ←
    lift (select_parser_group config section mutex_group_dict parser);
  parser ← lift (container_add_argument env item primary_argument arg_dict parser);
  mret (parser, mutex_group_dict).

(** The [for section in config.sections()] loop of [build_arg_parser]. *)
Definition add_arguments (env : Env) (config : ConfigParser)
    (parser : Parser) (mutex_group_dict : gmap string nat)
    : IO (Parser * gmap string nat) :=
  for_each_io
    (λ '(parser, mutex_group_dict) section,
       add_argument env parser config mutex_group_dict section)
    (parser, mutex_group_dict) (sections config).

(** [build_arg_parser(config)] up to its last line: the parser, fully
    declared, and the dictionary of its mutually exclusive groups. *)
Definition declare_arguments (env : Env) (config : ConfigParser)
    : IO (Parser * gmap string nat) :=
  let root := defaults config in
  config_command ← lift (dict_item root "command");
  let parser := GooeyParser (dict_get root "about" config_command) in
  let mutex_group_dict : gmap string nat := ∅ in
  '(parser, mutex_group_dict) ← add_arguments env config parser mutex_group_dict;
  let help_flag := root !! "help_flag" in
  parser ←
    (if truthy (opt_val help_flag) then
       lift (container_add_argument env GlobalParser "--mock-command-help-flag"
               (<["action" := PStr "store_true"]>
                  (<["dest" := PStr SHOW_COMMAND_HELP]>
                     (<["help" := PStr "Execute command's own help info"]> ∅)))
               parser)
     else mret parser);
  mret (parser, mutex_group_dict).

(** [build_arg_parser(config)], with [vars] of the namespace it returns. *)
Definition build_arg_parser (env : Env) (config : ConfigParser)
    : IO (gmap string PyVal) :=
  '(parser, _) ← declare_arguments env config;
  lift (parse_args env parser).

(** [subprocess.Popen(cmd, shell=True, ...)], run to its end. *)
Definition spawn (env : Env) (cmd : string) : IO Process := λ w,
  match popen env cmd (files w) with
  | Ok proc =>
      (Ok proc, {| files := proc_files proc;
                   console := console w;
                   dialogs := dialogs w |})
  | Raise e => (Raise e, w)
  end.

(** [run_command(cmd)] *)
Definition run_command (env : Env) (cmd : string) : IO Z :=
  print env ("Running: " +:+ cmd);;
  proc ← spawn env cmd;
  for_each_io (λ _ line, print env (Str.rstrip line)) () (proc_stdout proc);;
  let retval := proc_wait proc in
  let status :=
    nl +:+ "# Done. Command Return Status: " +:+ pretty retval +:+ "; "
    +:+ "Elapsed time: " +:+ proc_elapsed proc +:+ " sec." +:+ nl in
  print env status;;
  mret retval.

(** The status line [run_command] prints last. *)
Definition status_line (proc : Process) : string :=
  nl +:+ "# Done. Command Return Status: " +:+ pretty (proc_wait proc) +:+ "; "
  +:+ "Elapsed time: " +:+ proc_elapsed proc +:+ " sec." +:+ nl.

(** The body of the [for section in config.sections()] loop of
    [construct_and_run]. *)
Definition append_section (config : ConfigParser) (args : gmap string PyVal)
    (cmd : string) (section : string) : result string :=
  if truthy (dict_get args section PNone) then
    proxy ← getitem config section;
    let arg_flag := proxy_get proxy "flag" "" in
    let arg_flag := if decide (arg_flag ≠ "") then " " +:+ arg_flag else arg_flag in
    let cmd_param := "" in
    value ← dict_item args section;
    cmd_param ←
      (if negb (bool_decide ("True" = py_format value)) then
         new_param ← dict_item args section;
         let new_param :=
           match new_param with
           | PList l => PStr (Str.join " " l)
           | _ => new_param
           end in
         str_add " " new_param
       else Ok cmd_param);
    Ok ((cmd +:+ arg_flag) +:+ cmd_param)
  else Ok cmd.

(** The command line [construct_and_run] builds before it runs it. *)
Definition construct_command (config : ConfigParser) (args : gmap string PyVal)
    : result string :=
  cmd ← dict_item (defaults config) "command";
  if truthy (dict_get args SHOW_COMMAND_HELP (PBool false)) then
    help_flag ← dict_item (defaults config) "help_flag";
    Ok ((cmd +:+ " ") +:+ help_flag)
  else
    for_each (append_section config args) cmd (sections config).

(** [construct_and_run(config, args)] *)
Definition construct_and_run (env : Env) (config : ConfigParser)
    (args : gmap string PyVal) : IO Z :=
  cmd ← lift (construct_command config args);
  retval ← run_command env cmd;
  mret retval.

(** The text of the default icon, base64 encoded. *)
Definition base64_icon : string :=
  "iVBORw0KGgoAAAANSUhEUgAAAEAAAABABAMAAABYR2ztAAAAMFBMVEXsEBf/klsIn+j/5LVAFahATc280O"
  +:+ "7+///tp6D/eiD/8g6hSKOwpttZM7PxV1q2dLDHVzQyAAAAEHRSTlP/////////AP//////////hG6+3wAA"
  +:+ "AAlwSFlzAAAExAAABMQBPMzUgwAAAqxJREFUSImFlb9r20AUx/UXZHW9GhIv2jqYdrZig2yy+JrFWgz1DY"
  +:+ "WS2sm9pHGapTSEDsUUmt5fEMhscOEVDMGphngqVjK0pt36DwQ6mELfnWTJP3TJA+ND99H3ve+7J8mCB8Iy"
  +:+ "XP/w7n5g33XvA8TfY+zBCzPw1u0hots3AcJFHVtGBcTe4A5x0whc4y3APzSmIAV4fH6MJRMwxfLriwvC+u"
  +:+ "lA28U+AeeIvwwKLpaeEjDFgRkghQJixQB8+zFoUw3uF9/k4n2Pt+FwyYVoNvlsfY1l3salPrRyufXEBhaL"
  +:+ "qGtcAHKzdXgUWDYCh1tTxK89PwZaPAR4uATggrotIAZyG9DIqeCClrrkYjFSsyL1JGIvMSAW9iOJeWBRYF"
  +:+ "kiUbCblwaFsEB1X0ct8quAdtiW8pFGIRXI076UHyEdoPv4qcwSkWmlpqDbtICUnztpALnYOJCyqzRg1YU2"
  +:+ "mX8SKsjM5bLRCMjqErLyTPmwF1PoJki9LeWZbuuqAtf7XSk/tdJT8KiEUMFOBchE15wifzrvYqlI1Yf8QQ"
  +:+ "QUqILwuBsjf76T++F+V8SdHI5LMUCykNSoAOGDx26hA8lphhIQDcawcuWw8bPadgioOYFXlKAQPRyi6k0Y"
  +:+ "Y5MgSCZKN0c7otp2aZcF9Kv5yUzaHJrxTDrMc65qjP1MnWoCGKN3h/BYSQOdxX3VJqfmv1k7OQrqc1MdB9"
  +:+ "lsOAFY1lqHTZqRCxuip0otYbfK6jvWb4s7rMj1w9vIhzJ+uCQTpR3LsjIBq/G09wMBNwr4w0xAwDYVQCnG"
  +:+ "qYB4zlibAOF4o7m3nG0nc0A2X1onR+y76ZulewizRqVEwCaVUdzq1dhz6KyqdFo1E6BOUsWYG1J4E5oHz3"
  +:+ "FuTDXsbQuH1WHIzZ9mWGfJ0KbGXfEBQET/RmAW/wFQUmn+RQQp2wAAAABJRU5ErkJggg==".

(** [set_default_icon()] *)
Definition set_default_icon (env : Env) : IO unit :=
  let icon_file := script_parent env +:+ "/config_icon.png" in
  present ← path_exists icon_file;
  if GUI_GENERATE_DEFAULT_ICON && negb present then
    info_box ("Setting a default program icon file (config_icon.png). "
              +:+ "Replace by another icon if you wish");;
    write_file icon_file (decodebytes env base64_icon)
  else mret ().

(** The name of the ini file: that of the script, with [.ini] for its last
    extension. *)
Definition ini_file_name (env : Env) : string :=
  Str.rpartition_head "."%char (script_name env) +:+ ".ini".

(** The first part of [main]: the ini file is created if it is missing,
    the icon is set, and the ini file is read. *)
Definition load_config (env : Env) : IO ConfigParser :=
  let ini_file_name := ini_file_name env in
  present ← path_exists ini_file_name;
  (if negb present then
     write_file ini_file_name
       (Str.replace "__PYTHON__" (executable_stem env) DEFAULT_INI_FILE);;
     info_box (ini_file_name +:+ " does not exist, Generated a default file")
   else mret ());;
  set_default_icon env;;
  text ← open_read ini_file_name;
  lift (read_file env text).

(** [main()]: it ends by [sys.exit] with the subprocess's status, or by
    the exception that the error window reports. *)
Definition main (env : Env) : IO unit :=
  try_except
    (config ← load_config env;
     args ← build_arg_parser env config;
     retval ← construct_and_run env config args;
     sys_exit retval)
    (λ _exp, error_message _exp None).

(* ================================================================== *)
(** * The specification's readings, for comparison with the code *)

Module Spec.

(** The seven argument types of the data model. *)
Inductive ArgType : Type :=
  | Boolean | String_ | Integer | File | Dir | Save | Choice.

Definition arg_type_of (name : string) : option ArgType :=
  if decide (name = "boolean") then Some Boolean
  else if decide (name = "string") then Some String_
  else if decide (name = "integer") then Some Integer
  else if decide (name = "file") then Some File
  else if decide (name = "dir") then Some Dir
  else if decide (name = "save") then Some Save
  else if decide (name = "choice") then Some Choice
  else None.

(** The parser parameters each type is translated to: the action, the
    widget, and the number of values ([+] is one or more). *)
Definition action_of (t : ArgType) : PyVal :=
  match t with
  | Boolean => PStr "store_true"
  | String_ | Choice => PStr "store"
  | Integer | File | Dir | Save => PNone
  end.
Definition widget_of (t : ArgType) : PyVal :=
  match t with
  | Integer => PStr "IntegerField"
  | File => PStr "MultiFileChooser"
  | Save => PStr "FileSaver"
  | Dir => PStr "DirChooser"
  | Boolean | String_ | Choice => PNone
  end.
Definition nargs_of (t : ArgType) : option PyVal :=
  match t with
  | File => Some (PStr "+")
  | _ => None
  end.

(** The flag a section contributes to the command line: a space and the
    flag, when the section's view declares a non-empty one. *)
Definition flag_part (config : ConfigParser) (section : string) : string :=
  match getitem config section with
  | Ok proxy =>
      match proxy !! "flag" with
      | Some flag => if decide (flag ≠ "") then " " +:+ flag else ""
      | None => ""
      end
  | Raise _ => ""
  end.

(** A value as text: a list joined by spaces, anything else formatted. *)
Definition stringified (v : PyVal) : string :=
  match v with
  | PList l => Str.join " " l
  | _ => py_format v
  end.

(** What a section adds to the command line as the specification words it: the
    flag, then a space and the value's text, for a value that is
    present (counts as true). *)
Definition spec_contribution (config : ConfigParser)
    (args : gmap string PyVal) (section : string) : string :=
  match args !! section with
  | Some v =>
      if truthy v then flag_part config section +:+ " " +:+ stringified v
      else ""
  | None => ""
  end.

(** What the code adds: the same, but a value whose text is [True]
    leaves the flag alone. *)
Definition value_part (v : PyVal) : string :=
  if decide (py_format v = "True") then "" else " " +:+ stringified v.

Definition contribution (config : ConfigParser)
    (args : gmap string PyVal) (section : string) : string :=
  match args !! section with
  | Some v =>
      if truthy v then flag_part config section +:+ value_part v else ""
  | None => ""
  end.

(** The contributions of a list of sections, one after the other. *)
Definition contributions (config : ConfigParser) (args : gmap string PyVal)
    (names : list string) : string :=
  foldr String.app "" (contribution config args <$> names).

Definition spec_contributions (config : ConfigParser)
    (args : gmap string PyVal) (names : list string) : string :=
  foldr String.app "" (spec_contribution config args <$> names).

(** The mutex-group id a section declares, if any: the text of a
    [mutex] option that is not empty. *)
Definition mutex_id (config : ConfigParser) (section : string) : option string :=
  match getitem config section with
  | Ok proxy =>
      match proxy !! "mutex" with
      | Some m => if decide (m ≠ "") then Some m else None
      | None => None
      end
  | Raise _ => None
  end.

(** The notice shown for a section whose type is none of the seven. *)
Definition invalid_type_notice (section arg_type : string) : Dialog :=
  ShowInfo "Script Notice"
    ("Section " +:+ String Str.dquote (section +:+ String Str.dquote
       (": Invalid type " +:+ String Str.dquote (arg_type +:+
          String Str.dquote "; defaulting to boolean")))).

(** The declared choices: what stands between the commas of the
    [choices] option ([Yes, No] when the section has no such option),
    each piece without the blanks around it; nothing between two commas
    is no choice, while blanks alone make the empty choice. *)
Fixpoint choice_items (pieces : list string) : list string :=
  match pieces with
  | [] => []
  | piece :: pieces' =>
      match piece with
      | EmptyString => choice_items pieces'
      | String _ _ => Str.strip piece :: choice_items pieces'
      end
  end.

(** The choices keyword of a [choice] section: the declared choices, and
    no keyword at all when there is none. *)
Definition declared_choices (proxy : gmap string string) : option PyVal :=
  match choice_items
          (Str.split ","%char (default "Yes, No" (proxy !! "choices"))) with
  | [] => None
  | items => Some (PList items)
  end.

(** A string without the occurrences of one character. *)
Fixpoint without_char (c : ascii) (s : string) : string :=
  match s with
  | EmptyString => EmptyString
  | String a s' =>
      if bool_decide (a = c) then without_char c s'
      else String a (without_char c s')
  end.

(** An item as one writes it in a list of choices: not empty, without a
    comma, and with no blank at either end. *)
Definition clean_item (item : string) : Prop :=
  item ≠ ""
  ∧ Str.contains_char ","%char item = false
  ∧ match item with
    | EmptyString => True
    | String a _ => Str.isspace a = false
    end
  ∧ match String.rev item with
    | EmptyString => True
    | String a _ => Str.isspace a = false
    end.

(** The keywords of a section's argument follow the table of types, and
    the notice is added to the dialogs for a type outside the table
    only. *)
Definition type_parameters_ok (proxy : gmap string string) (section : string)
    (kwargs : gmap string PyVal) (before after : list Dialog) : Prop :=
  match arg_type_of (proxy_get proxy "type" "boolean") with
  | Some t =>
      kwargs !! "action" = Some (action_of t)
      ∧ kwargs !! "widget" = Some (widget_of t)
      ∧ kwargs !! "nargs" = nargs_of t
      ∧ kwargs !! "choices"
        = match t with
          | Choice => declared_choices proxy
          | _ => None
          end
      ∧ after = before
  | None =>
      kwargs !! "action" = Some (PStr "store_true")
      ∧ kwargs !! "widget" = Some PNone
      ∧ kwargs !! "nargs" = None
      ∧ kwargs !! "choices" = None
      ∧ after
        = before ++ [invalid_type_notice section (proxy_get proxy "type" "boolean")]
  end.

(** An argument sits where its section's mutex id sends it: in the group
    the dictionary holds for the id, or in the parser itself without an
    id. *)
Definition in_container (config : ConfigParser) (mutex_group_dict : gmap string nat)
    (a : Argument) (section : string) : Prop :=
  match mutex_id config section with
  | Some m => ∃ g, mutex_group_dict !! m = Some g ∧ arg_container a = MutexGroup g
  | None => arg_container a = GlobalParser
  end.

(** The groups of a parser and the dictionary of groups agree: every
    entry names a group of the parser, no two ids share a group, and the
    parser has no group outside the dictionary. *)
Definition one_group_per_id (parser : Parser) (mutex_group_dict : gmap string nat)
    : Prop :=
  (∀ m g, mutex_group_dict !! m = Some g → (g < parser_groups parser)%nat)
  ∧ (∀ m1 m2 g,
       mutex_group_dict !! m1 = Some g → mutex_group_dict !! m2 = Some g → m1 = m2)
  ∧ size mutex_group_dict = parser_groups parser.

(** An argument as [add_argument] declares it for a section: named by the
    section title, without [dest], for a section without a flag; named by
    the flag, with [dest] set to the section title, for a section with
    one. Its default is the section's [default] option, or [None]. *)
Definition declared_for_section (config : ConfigParser) (a : Argument)
    (section : string) : Prop :=
  ∃ proxy,
    getitem config section = Ok proxy
    ∧ (if decide ("_positional" = proxy_get proxy "flag" "_positional")
       then arg_name a = section ∧ arg_kwargs a !! "dest" = None
       else arg_name a = proxy_get proxy "flag" "_positional"
            ∧ arg_kwargs a !! "dest" = Some (PStr section))
    ∧ arg_kwargs a !! "default" = Some (opt_val (proxy !! "default")).

End Spec.

(* ================================================================== *)
(** * A configuration to run the definitions on: the default ini file *)

Definition json_tool_config : ConfigParser :=
  {| _defaults :=
       <["command" := "python -m json.tool"]>
         (<["about" := "A json pretty print tool. It Can also validate integrity.
This can be a multi-line help description
Using indentation"]>
            (<["help_flag" := "--help"]> ∅));
     _sections :=
       [ ("Indentation Width",
          <["flag" := "--indent"]> (<["type" := "string"]>
            (<["help" := "Separate items with newlines and use this number of spaces for indentation."]>
               (<["mutex" := "IndentSpaceOrTab"]> ∅))));
         ("Test Choice (Demo)",
          <["flag" := "--test"]> (<["type" := "choice"]>
            (<["help" := "Test choices: For completeness. Do not set.
for json.tool to work, this flag should not be set"]>
               (<["choices" := "One, Two, Three"]> ∅))));
         ("Sort Keys",
          <["flag" := "--sort-keys"]>
            (<["help" := "Sort the output of dictionaries alphabetically by key"]> ∅));
         ("Tab",
          <["flag" := "--tab"]> (<["type" := "boolean"]>
            (<["help" := "Separate items with newlines and use tabs for indentation"]>
               (<["mutex" := "IndentSpaceOrTab"]> ∅))));
         ("No Indent",
          <["flag" := "--no-indent"]> (<["type" := "boolean"]>
            (<["help" := "No indentation at all"]>
               (<["mutex" := "IndentSpaceOrTab"]> ∅))));
         ("Compact",
          <["flag" := "--compact"]> (<["type" := "boolean"]>
            (<["help" := "Comact json, much less readable, shorter for serialization"]>
               (<["mutex" := "IndentSpaceOrTab"]> ∅))));
         ("Infile",
          <["type" := "file"]> (<["help" := "Input file name (required)"]> ∅));
         ("Outfile",
          <["type" := "save"]>
            (<["help" := "Output file name. Optional. can be equal to Input File name"]>
               (<["default" := "--"]> ∅))) ] |}.

Definition empty_world : World :=
  {| files := ∅; console := []; dialogs := [] |}.

(** A world in which the ini file exists already. *)
Definition custom_ini_world : World :=
  {| files := <["gucli.ini" := "[root]"]> ∅; console := []; dialogs := [] |}.

(** The argparse of the example environments. It refuses an empty name;
    a name without a leading dash that comes with [dest], or that is
    offered to a mutually exclusive group; and an option string the parser
    has already, [-h] and [--help] being its own. *)
Definition argparse_check (parser : Parser) (item : Container)
    (name : string) (kwargs : gmap string PyVal) : result unit :=
  match name with
  | EmptyString => Raise (LibraryError "IndexError")
  | String a _ =>
      if bool_decide (a = "-"%char) then
        if bool_decide
             (name ∈ "-h" :: "--help" :: (arg_name <$> parser_arguments parser))
        then Raise (LibraryError "ArgumentError")
        else Ok ()
      else
        match kwargs !! "dest", item with
        | Some _, _ => Raise (LibraryError "ValueError")
        | None, MutexGroup _ => Raise (LibraryError "ValueError")
        | None, GlobalParser => Ok ()
        end
  end.

(** What the form of the default ini file gives back when the user ticks
    [Sort Keys], picks one input file and names an output file: an option
    left alone has the default passed for it, [None]. *)
Definition example_namespace : gmap string PyVal :=
  <["Indentation Width" := PNone]>
    (<["Test Choice (Demo)" := PNone]>
       (<["Sort Keys" := PBool true]>
          (<["Tab" := PNone]>
             (<["No Indent" := PNone]>
                (<["Compact" := PNone]>
                   (<["Infile" := PList ["a.json"]]>
                      (<["Outfile" := PStr "out.json"]>
                         (<[SHOW_COMMAND_HELP := PBool false]> ∅)))))))).

(** An environment in which the user fills the form so, and the
    subprocess prints two lines and ends with status 3. *)
Definition example_env : Env :=
  {| script_name := "gucli.pyw";
     script_parent := ".";
     executable_stem := "python";
     read_file := λ _, Ok json_tool_config;
     decodebytes := λ text, text;
     item_add_argument := argparse_check;
     parse_args := λ _, Ok example_namespace;
     popen := λ _ fs,
       Ok {| proc_stdout := ["{  "; "}"];
             proc_wait := 3;
             proc_elapsed := "0.01";
             proc_files := fs |};
     stdout_write := λ _, Ok () |}.

(** The same, but a signal kills the subprocess: its wait status is the
    negated signal number. *)
Definition killed_env : Env :=
  {| script_name := "gucli.pyw";
     script_parent := ".";
     executable_stem := "python";
     read_file := λ _, Ok json_tool_config;
     decodebytes := λ text, text;
     item_add_argument := argparse_check;
     parse_args := λ _, Ok example_namespace;
     popen := λ _ fs,
       Ok {| proc_stdout := [];
             proc_wait := -9;
             proc_elapsed := "0.01";
             proc_files := fs |};
     stdout_write := λ _, Ok () |}.

(** A configuration whose one section has no flag and a mutex-group id. *)
Definition positional_mutex_config : ConfigParser :=
  {| _defaults := <["command" := "tool"]> ∅;
     _sections :=
       [("Input", <["type" := "file"]> (<["mutex" := "io"]> ∅))] |}.

(** Parsed arguments: a ticked flag and two input files. *)
Definition sort_keys_args : gmap string PyVal :=
  <["Sort Keys" := PBool true]> (<["Infile" := PList ["a.json"; "b c.json"]]> ∅).

(** An argument value full of shell syntax. *)
Definition hostile_args : gmap string PyVal :=
  <["Indentation Width" := PStr "4; rm -rf ~ 'x' $(id) | tee"]> ∅.

(** The user typed the text [True] in a string field. *)
Definition typed_True_args : gmap string PyVal :=
  <["Indentation Width" := PStr "True"]> ∅.

(** The user cleared the output file and left every flag alone. *)
Definition cleared_args : gmap string PyVal :=
  <["Outfile" := PStr ""]> (<["Infile" := PList ["a.json"]]>
    (<["Tab" := PNone]> (<["Compact" := PBool false]> ∅))).

(** The help option selected among other values. *)
Definition help_args : gmap string PyVal :=
  <[SHOW_COMMAND_HELP := PBool true]>
    (<["Infile" := PList ["a.json"]]> (<["Sort Keys" := PBool true]> ∅)).

(* ================================================================== *)
(** * The import guard at the head of the script

    [from gooey import Gooey, GooeyParser] under [try]; on an
    [ImportError] the handler names the missing module in an error
    window. The error is carried as [LibraryError] with its text. *)

(** [s.split()]: the words of [s], split at runs of blanks. [cur] holds the
    word being read, reversed. *)
Fixpoint split_whitespace_go (cur : option string) (s : string) : list string :=
  match s with
  | EmptyString => option_list (String.rev <$> cur)
  | String a s' =>
      if Str.isspace a
      then option_list (String.rev <$> cur) ++ split_whitespace_go None s'
      else split_whitespace_go (Some (String a (default EmptyString cur))) s'
  end.
Definition split_whitespace (s : string) : list string :=
  split_whitespace_go None s.

(** [l[-1]] *)
Definition list_last_item (l : list string) : result string :=
  match last l with
  | Some x => Ok x
  | None => Raise (LibraryError "IndexError")
  end.

(** The body of [except ImportError as _err:], for [str(_err)]. *)
Definition import_failed {A : Type} (err_text : string) : IO A :=
  last_word ← lift (list_last_item (split_whitespace err_text));
  let module_name := Str.replace (String Str.squote EmptyString) "" last_word in
  let msg :=
    "Failed to import " +:+ module_name +:+ ";" +:+ nl
    +:+ "Please run in CLI:    pip install " +:+ module_name in
  error_message (LibraryError err_text) (Some msg).

(* ================================================================== *)
(** * Further readings of the code, for its other properties *)

(** The option [build_arg_parser] adds for the command's own help. *)
Definition help_option : Argument :=
  {| arg_container := GlobalParser;
     arg_name := "--mock-command-help-flag";
     arg_kwargs :=
       <["action" := PStr "store_true"]>
         (<["dest" := PStr SHOW_COMMAND_HELP]>
            (<["help" := PStr "Execute command's own help info"]> ∅)) |}.

(** The notices for the sections of a list whose type is none of the
    seven, in order. *)
Definition invalid_type_notices (config : ConfigParser) (names : list string)
    : list Dialog :=
  concat
    ((λ section,
        match getitem config section with
        | Ok proxy =>
            match Spec.arg_type_of (proxy_get proxy "type" "boolean") with
            | Some _ => []
            | None =>
                [Spec.invalid_type_notice section
                   (proxy_get proxy "type" "boolean")]
            end
        | Raise _ => []
        end) <$> names).

(** A world with more dialogs. *)
Definition with_dialogs (w : World) (more : list Dialog) : World :=
  {| files := files w; console := console w; dialogs := dialogs w ++ more |}.

(** The path of the icon file. *)
Definition icon_file (env : Env) : string :=
  script_parent env +:+ "/config_icon.png".

(** A configuration without a command, with one section of an unknown
    type. *)
Definition no_command_config : ConfigParser :=
  {| _defaults := <["about" := "nothing to run"]> ∅;
     _sections := [("Level", <["flag" := "-l"]> (<["type" := "float"]> ∅))] |}.

(** An environment whose ini file reads as that configuration. *)
Definition no_command_env : Env :=
  {| script_name := "tool.pyw";
     script_parent := "/opt/tool";
     executable_stem := "python3";
     read_file := λ _, Ok no_command_config;
     decodebytes := λ text, text;
     item_add_argument := argparse_check;
     parse_args := λ _, Ok ∅;
     popen := λ _ fs,
       Ok {| proc_stdout := []; proc_wait := 0; proc_elapsed := "0.00";
             proc_files := fs |};
     stdout_write := λ _, Ok () |}.

(** What [lstrip] returns is empty or begins with a character that is no
    blank, and such a string is left as it is. *)
Definition no_blank_head (s : string) : Prop :=
  match s with
  | EmptyString => True
  | String a _ => Str.isspace a = false
  end.

(** Runs the monadic steps of a goal. *)
Ltac run_io :=
  unfold mbind, IO_bind, mret, IO_ret, lift, info_box, show_dialog; simpl.

(* ================================================================== *)
(** * Strings: append *)

Section string_append.

Lemma str_app_nil_l (s : string) : "" +:+ s = s.
Proof. reflexivity. Qed.

Lemma str_app_cons (a : ascii) (s t : string) :
  String a s +:+ t = String a (s +:+ t).
Proof. reflexivity. Qed.

Lemma str_app_nil_r (s : string) : s +:+ "" = s.
Proof.
  induction s as [|a s IH]; [reflexivity|].
  rewrite str_app_cons, IH. reflexivity.
Qed.

Lemma str_app_assoc (s t u : string) : (s +:+ t) +:+ u = s +:+ (t +:+ u).
Proof.
  induction s as [|a s IH]; [reflexivity|].
  rewrite !str_app_cons, IH. reflexivity.
Qed.

Lemma foldr_app_app (l1 l2 : list string) :
  foldr String.app "" (l1 ++ l2)
  = foldr String.app "" l1 +:+ foldr String.app "" l2.
Proof.
  induction l1 as [|x l1 IH]; simpl; [reflexivity|].
  rewrite IH, str_app_assoc. reflexivity.
Qed.

End string_append.

(* ================================================================== *)
(** * Strings: reversal, strip and split *)

Lemma contains_char_app (c : ascii) (s t : string) :
  Str.contains_char c (s +:+ t) = Str.contains_char c s || Str.contains_char c t.
Proof.
  induction s as [|a s IH]; [done|].
  rewrite str_app_cons. simpl. rewrite IH. apply orb_assoc.
Qed.

Lemma rev_app_append (s t : string) :
  String.rev_app s t = String.rev_app s "" +:+ t.
Proof.
  revert t. induction s as [|a s IH]; intros t; simpl; [done|].
  rewrite (IH (String a t)), (IH (String a "")).
  by rewrite str_app_assoc.
Qed.

Lemma rev_cons (a : ascii) (s : string) :
  String.rev (String a s) = String.rev s +:+ String a "".
Proof. unfold String.rev. simpl. apply rev_app_append. Qed.

Lemma rev_app_snoc (s t : string) (a : ascii) :
  String.rev_app (s +:+ String a "") t = String a (String.rev_app s t).
Proof.
  revert t. induction s as [|b s IH]; intros t; [done|].
  rewrite str_app_cons. simpl. apply IH.
Qed.

Lemma rev_snoc (s : string) (a : ascii) :
  String.rev (s +:+ String a "") = String a (String.rev s).
Proof. apply rev_app_snoc. Qed.

Lemma rev_involutive (s : string) : String.rev (String.rev s) = s.
Proof.
  induction s as [|a s IH]; [done|].
  by rewrite rev_cons, rev_snoc, IH.
Qed.

Lemma rev_append (s t : string) :
  String.rev (s +:+ t) = String.rev t +:+ String.rev s.
Proof.
  induction s as [|a s IH]; [by rewrite str_app_nil_r|].
  rewrite str_app_cons, !rev_cons, IH. apply str_app_assoc.
Qed.

Lemma rev_rev_app (s cur : string) :
  String.rev (String.rev_app s cur) = String.rev cur +:+ s.
Proof.
  rewrite rev_app_append, rev_append.
  change (String.rev_app s "") with (String.rev s).
  by rewrite rev_involutive.
Qed.

Lemma contains_char_rev (c : ascii) (s : string) :
  Str.contains_char c (String.rev s) = Str.contains_char c s.
Proof.
  induction s as [|a s IH]; [done|].
  rewrite rev_cons, contains_char_app, IH. simpl.
  rewrite orb_false_r. apply orb_comm.
Qed.

Lemma lstrip_contains (c : ascii) (s : string) :
  Str.contains_char c s = false → Str.contains_char c (Str.lstrip s) = false.
Proof.
  induction s as [|a s IH]; [done|]. simpl.
  intros [Ha Hs]%orb_false_elim.
  destruct (Str.isspace a); [by apply IH|]. simpl. by rewrite Ha, Hs.
Qed.

Lemma strip_contains (c : ascii) (s : string) :
  Str.contains_char c s = false → Str.contains_char c (Str.strip s) = false.
Proof.
  intros Hs. unfold Str.strip, Str.rstrip.
  rewrite contains_char_rev. apply lstrip_contains.
  rewrite contains_char_rev. by apply lstrip_contains.
Qed.

Lemma lstrip_no_blank_head (s : string) : no_blank_head (Str.lstrip s).
Proof.
  induction s as [|a s IH]; [done|]. simpl.
  destruct (Str.isspace a) eqn:Ha; [done|]. exact Ha.
Qed.

Lemma lstrip_fixed (s : string) : no_blank_head s → Str.lstrip s = s.
Proof. destruct s as [|a s]; [done|]. simpl. by intros ->. Qed.

Lemma lstrip_snoc (t : string) (a : ascii) :
  Str.isspace a = false →
  ∃ t', Str.lstrip (t +:+ String a "") = t' +:+ String a "".
Proof.
  intros Ha. induction t as [|b t IH].
  - exists "". simpl. by rewrite Ha.
  - rewrite str_app_cons. simpl. destruct (Str.isspace b); [done|].
    exists (String b t). by rewrite str_app_cons.
Qed.

Lemma rstrip_no_blank_head (s : string) :
  no_blank_head s → no_blank_head (Str.rstrip s).
Proof.
  destruct s as [|a s]; [done|]. simpl. intros Ha.
  unfold Str.rstrip. rewrite rev_cons.
  destruct (lstrip_snoc (String.rev s) a Ha) as [t' ->].
  by rewrite rev_snoc.
Qed.

Lemma rstrip_fixed (s : string) :
  no_blank_head (String.rev s) → Str.rstrip s = s.
Proof.
  intros Hs. unfold Str.rstrip. rewrite (lstrip_fixed _ Hs).
  apply rev_involutive.
Qed.

Lemma rstrip_rstrip (s : string) : Str.rstrip (Str.rstrip s) = Str.rstrip s.
Proof.
  unfold Str.rstrip. rewrite rev_involutive.
  by rewrite (lstrip_fixed _ (lstrip_no_blank_head _)).
Qed.

Lemma strip_strip (s : string) : Str.strip (Str.strip s) = Str.strip s.
Proof.
  unfold Str.strip.
  rewrite (lstrip_fixed (Str.rstrip (Str.lstrip s))).
  - apply rstrip_rstrip.
  - apply rstrip_no_blank_head, lstrip_no_blank_head.
Qed.

Lemma split_go_contains (sep : ascii) (s cur : string) :
  Str.contains_char sep cur = false →
  Forall (λ piece, Str.contains_char sep piece = false) (Str.split_go sep cur s).
Proof.
  revert cur. induction s as [|a s IH]; intros cur Hcur; simpl.
  - constructor; [|done]. by rewrite contains_char_rev.
  - case_bool_decide as Ha.
    + constructor; [by rewrite contains_char_rev|]. by apply IH.
    + apply IH. simpl. rewrite Hcur, orb_false_r.
      by apply bool_decide_eq_false_2.
Qed.

(** Splitting runs through a piece that holds no separator. *)
Lemma split_go_app (sep : ascii) (x s cur : string) :
  Str.contains_char sep x = false →
  Str.split_go sep cur (x +:+ s) = Str.split_go sep (String.rev_app x cur) s.
Proof.
  revert cur. induction x as [|a x IH]; intros cur Hx; [done|].
  simpl in Hx. apply orb_false_elim in Hx as [Ha Hx].
  rewrite str_app_cons. simpl. rewrite Ha. by apply IH.
Qed.

(** Splitting the items joined by a comma and a blank gives the items
    back, all but the first behind the blank. *)
Lemma split_go_concat (x : string) (items : list string) (cur : string) :
  Forall (λ item, Str.contains_char ","%char item = false) (x :: items) →
  Str.split_go ","%char cur (String.concat ", " (x :: items))
  = (String.rev cur +:+ x) :: ((λ item, " " +:+ item) <$> items).
Proof.
  revert x cur. induction items as [|y items IH]; intros x cur Hall.
  - simpl. rewrite <- (str_app_nil_r x) at 1.
    rewrite split_go_app by (by inversion Hall). simpl.
    by rewrite rev_rev_app.
  - change (String.concat ", " (x :: y :: items))
      with (x +:+ ", " +:+ String.concat ", " (y :: items)).
    inversion Hall as [|? ? Hx Hall']; subst.
    rewrite split_go_app by done.
    rewrite !str_app_cons, str_app_nil_l.
    cbn [Str.split_go]. rewrite bool_decide_eq_true_2 by done.
    rewrite (bool_decide_eq_false_2 (" "%char = ","%char)) by done.
    rewrite rev_rev_app, (IH y " " Hall'). reflexivity.
Qed.

Lemma parse_choices_clean (raw_choices : string) :
  Forall (λ ch, Str.contains_char ","%char ch = false ∧ Str.strip ch = ch)
    (parse_choices raw_choices).
Proof.
  unfold parse_choices. apply Forall_forall.
  intros ch (piece & -> & [_ Hin]%list_elem_of_filter)%list_elem_of_fmap.
  pose proof (split_go_contains ","%char raw_choices "" eq_refl) as Hall.
  rewrite Forall_forall in Hall. split.
  - apply strip_contains. by apply Hall.
  - apply strip_strip.
Qed.

(** The list comprehension of [add_argument], piece by piece. *)
Lemma parse_choices_items (raw_choices : string) :
  parse_choices raw_choices
  = Spec.choice_items (Str.split ","%char raw_choices).
Proof.
  unfold parse_choices. generalize (Str.split ","%char raw_choices).
  intros pieces. induction pieces as [|piece pieces IH]; [done|].
  destruct piece as [|a piece].
  - rewrite filter_cons_False by (intros H; by apply H). exact IH.
  - rewrite filter_cons_True by done.
    rewrite fmap_cons. cbn [Spec.choice_items]. by rewrite IH.
Qed.

Lemma strip_clean_item (item : string) :
  Spec.clean_item item → Str.strip item = item.
Proof.
  intros (_ & _ & Hhead & Hlast). unfold Str.strip.
  rewrite (lstrip_fixed item Hhead). by apply rstrip_fixed.
Qed.

Lemma strip_blank_clean_item (item : string) :
  Spec.clean_item item → Str.strip (" " +:+ item) = item.
Proof.
  intros Hitem. rewrite <- (strip_clean_item item Hitem) at 2.
  reflexivity.
Qed.

(** Clean items written with a comma and a blank between them are read
    back as they are. *)
Lemma parse_choices_concat (items : list string) :
  Forall Spec.clean_item items →
  parse_choices (String.concat ", " items) = items.
Proof.
  intros Hall. destruct items as [|x items]; [done|].
  unfold parse_choices, Str.split.
  rewrite split_go_concat
    by (eapply Forall_impl; [exact Hall|]; by intros item (_ & H & _)).
  change (String.rev "" +:+ x) with x.
  inversion Hall as [|? ? Hx Hall']; subst.
  rewrite filter_cons_True by apply Hx.
  rewrite fmap_cons, (strip_clean_item x Hx). f_equal.
  clear Hall Hx. induction Hall' as [|y items Hy Hall' IH]; [done|].
  rewrite fmap_cons, filter_cons_True by (rewrite str_app_cons; discriminate).
  rewrite fmap_cons, (strip_blank_clean_item y Hy). by rewrite IH.
Qed.

(* ================================================================== *)
(** * The configuration's sections *)

Lemma middle_elem_of {A : Type} (l1 l2 : list A) (x : A) : x ∈ l1 ++ x :: l2.
Proof. apply elem_of_app. right. by left. Qed.

Lemma middle_subseteq {A : Type} (l1 l2 : list A) (x : A) :
  l1 ++ l2 ⊆ l1 ++ x :: l2.
Proof.
  intros y [Hy|Hy]%elem_of_app; apply elem_of_app; [by left|].
  right. by right.
Qed.

Lemma assoc_elem_of {V : Type} (k : string) (l : list (string * V)) :
  k ∈ l.*1 → is_Some (assoc k l).
Proof.
  induction l as [|[k' v] l IH]; simpl; intros Hin.
  - by apply elem_of_nil in Hin.
  - destruct (decide (k' = k)) as [->|Hne]; [eauto|].
    apply elem_of_cons in Hin as [->|Hin]; [done|]. by apply IH.
Qed.

Lemma getitem_section (config : ConfigParser) (section : string) :
  section ∈ sections config → ∃ proxy, getitem config section = Ok proxy.
Proof.
  intros Hin. unfold getitem.
  destruct (assoc_elem_of section (_sections config) Hin) as [options ->].
  eauto.
Qed.

(* ================================================================== *)
(** * The command assembler *)

Lemma py_format_True (v : PyVal) :
  py_format v = "True" → v = PBool true ∨ v = PStr "True".
Proof.
  destruct v as [| [|] |s|l]; simpl; intros H.
  - discriminate.
  - by left.
  - discriminate.
  - right. by subst.
  - rewrite str_app_cons in H. discriminate.
Qed.

Lemma py_format_True_truthy (v : PyVal) :
  py_format v = "True" → truthy v = true.
Proof. intros [->| ->]%py_format_True; reflexivity. Qed.

(** One step of the loop appends the section's contribution. *)
Lemma append_section_contribution (config : ConfigParser)
    (args : gmap string PyVal) (cmd section : string) :
  section ∈ sections config →
  append_section config args cmd section
  = Ok (cmd +:+ Spec.contribution config args section).
Proof.
  intros [proxy Hproxy]%getitem_section.
  unfold append_section, Spec.contribution, Spec.flag_part, dict_get, dict_item.
  rewrite Hproxy. destruct (args !! section) as [v|] eqn:Hv; simpl;
    [|by rewrite str_app_nil_r].
  destruct (truthy v) eqn:Htrue; simpl; [|by rewrite str_app_nil_r].
  unfold proxy_get, Spec.value_part.
  assert (Hflag :
    (if decide (default "" (proxy !! "flag") ≠ "")
     then " " +:+ default "" (proxy !! "flag") else default "" (proxy !! "flag"))
    = match proxy !! "flag" with
      | Some flag => if decide (flag ≠ "") then " " +:+ flag else ""
      | None => ""
      end).
  { destruct (proxy !! "flag") as [flag|]; simpl; [|done].
    destruct (decide (flag ≠ "")) as [|Heq]; [done|].
    by apply dec_stable in Heq. }
  rewrite Hflag. clear Hflag.
  destruct (decide (py_format v = "True")) as [Heq|Hne].
  - rewrite bool_decide_eq_true_2 by done. simpl. by rewrite str_app_assoc.
  - rewrite bool_decide_eq_false_2 by (intros ?; by apply Hne). simpl.
    destruct v as [|b|s|l]; simpl in *; try discriminate.
    + destruct b; [by destruct Hne|discriminate].
    + by rewrite str_app_assoc.
    + by rewrite str_app_assoc.
Qed.

(** The whole loop appends the contributions in order. *)
Lemma for_each_append_section (config : ConfigParser)
    (args : gmap string PyVal) (names : list string) (cmd : string) :
  names ⊆ sections config →
  for_each (append_section config args) cmd names
  = Ok (cmd +:+ Spec.contributions config args names).
Proof.
  revert cmd. induction names as [|section names IH]; intros cmd Hsub; simpl.
  - by rewrite str_app_nil_r.
  - rewrite append_section_contribution by (apply Hsub; by left).
    simpl. rewrite IH by (intros x Hx; apply Hsub; by right).
    unfold Spec.contributions. simpl. by rewrite str_app_assoc.
Qed.

Lemma construct_command_contributions (config : ConfigParser)
    (args : gmap string PyVal) (base : string) :
  defaults config !! "command" = Some base →
  truthy (dict_get args SHOW_COMMAND_HELP (PBool false)) = false →
  construct_command config args
  = Ok (base +:+ Spec.contributions config args (sections config)).
Proof.
  intros Hbase Hhelp. unfold construct_command, dict_item.
  rewrite Hbase. simpl. rewrite Hhelp.
  by apply for_each_append_section.
Qed.

(** C1, as amended. The command assembler builds the command line by
    concatenation in schema-section order: when the command-help option
    is not selected, the result is the base command followed, for each
    section in declaration order whose parsed value counts as true, by the
    section's flag (preceded by a space, when a non-empty flag is
    declared) and then, unless the value's text is exactly [True], by a
    space and the value's text, a list being joined by spaces. *)
Theorem construct_command_schema_order (config : ConfigParser)
    (args : gmap string PyVal) (base : string) :
  defaults config !! "command" = Some base →
  truthy (dict_get args SHOW_COMMAND_HELP (PBool false)) = false →
  construct_command config args
  = Ok (base +:+ foldr String.app ""
          ((λ section,
              match args !! section with
              | Some v =>
                  if truthy v then
                    Spec.flag_part config section
                    +:+ (if decide (py_format v = "True") then ""
                         else " " +:+ Spec.stringified v)
                  else ""
              | None => ""
              end) <$> sections config)).
Proof.
  intros Hbase Hhelp. unfold construct_command, dict_item.
  rewrite Hbase. simpl. rewrite Hhelp.
  apply (for_each_append_section config args (sections config) base).
  done.
Qed.

Lemma construct_command_schema_order_witness :
  construct_command json_tool_config sort_keys_args
  = Ok "python -m json.tool --sort-keys a.json b c.json".
Proof.
  rewrite (construct_command_schema_order json_tool_config sort_keys_args
             "python -m json.tool"); [|reflexivity|reflexivity].
  vm_compute. reflexivity.
Defined.

(** C1, as first stated, fails on a ticked boolean flag: the specification
    puts the text [True] after the flag, the code puts the flag alone. *)
Lemma construct_command_spec_order_fails :
  defaults json_tool_config !! "command" = Some "python -m json.tool"
  ∧ truthy (dict_get sort_keys_args SHOW_COMMAND_HELP (PBool false)) = false
  ∧ construct_command json_tool_config sort_keys_args
    = Ok "python -m json.tool --sort-keys a.json b c.json"
  ∧ "python -m json.tool"
    +:+ Spec.spec_contributions json_tool_config sort_keys_args
          (sections json_tool_config)
    = "python -m json.tool --sort-keys True a.json b c.json"
  ∧ construct_command json_tool_config sort_keys_args
    ≠ Ok ("python -m json.tool"
          +:+ Spec.spec_contributions json_tool_config sort_keys_args
                (sections json_tool_config)).
Proof.
  split; [reflexivity|]. split; [reflexivity|].
  split; [vm_compute; reflexivity|]. split; [vm_compute; reflexivity|].
  vm_compute. intros H. discriminate H.
Qed.

Lemma contributions_split (config : ConfigParser) (args : gmap string PyVal)
    (l1 l2 : list string) (section : string) :
  Spec.contributions config args (l1 ++ section :: l2)
  = Spec.contributions config args l1
    +:+ Spec.contribution config args section
    +:+ Spec.contributions config args l2.
Proof.
  unfold Spec.contributions. rewrite fmap_app, foldr_app_app. reflexivity.
Qed.

Lemma contributions_app (config : ConfigParser) (args : gmap string PyVal)
    (l1 l2 : list string) :
  Spec.contributions config args (l1 ++ l2)
  = Spec.contributions config args l1 +:+ Spec.contributions config args l2.
Proof.
  unfold Spec.contributions. rewrite fmap_app. apply foldr_app_app.
Qed.

Lemma falsy_cases (v : PyVal) :
  truthy v = false ↔ v = PBool false ∨ v = PNone ∨ v = PStr "" ∨ v = PList [].
Proof.
  split.
  - destruct v as [|b|s|l]; simpl; intros H.
    + auto.
    + subst. auto.
    + apply bool_decide_eq_false in H. apply dec_stable in H. subst. auto.
    + apply bool_decide_eq_false in H. apply dec_stable in H. subst. auto 6.
  - intros [->|[->|[->| ->]]]; reflexivity.
Qed.

(** C7. Command assembly is plain concatenation: a parsed value that is
    appended (it counts as true and its text is not [True]) stands in the
    assembled command line as it is, after one space, whatever characters
    it holds; the strings of a list stand as they are with one space
    between them. Before it comes what the earlier sections and the
    section's flag gave, after it what the later sections give. *)
Theorem construct_command_value_verbatim (config : ConfigParser)
    (args : gmap string PyVal) (base section : string)
    (l1 l2 : list string) (v : PyVal) :
  defaults config !! "command" = Some base →
  truthy (dict_get args SHOW_COMMAND_HELP (PBool false)) = false →
  sections config = l1 ++ section :: l2 →
  args !! section = Some v →
  truthy v = true →
  py_format v ≠ "True" →
  ∃ text,
    match v with
    | PStr s => text = s
    | PList l => text = Str.join " " l
    | _ => False
    end
    ∧ construct_command config args
      = Ok ((base +:+ Spec.contributions config args l1
             +:+ Spec.flag_part config section)
            +:+ " " +:+ text
            +:+ Spec.contributions config args l2).
Proof.
  intros Hbase Hhelp Hsec Hv Htrue Hne.
  rewrite (construct_command_contributions _ _ _ Hbase Hhelp), Hsec.
  rewrite contributions_split. unfold Spec.contribution at 1.
  rewrite Hv, Htrue. unfold Spec.value_part.
  rewrite decide_False by done.
  exists (Spec.stringified v). split.
  - destruct v as [|b|s|l]; simpl in *; try done.
    destruct b; [by destruct Hne|done].
  - by rewrite !str_app_assoc.
Qed.

Lemma construct_command_value_verbatim_witness :
  construct_command json_tool_config hostile_args
  = Ok "python -m json.tool --indent 4; rm -rf ~ 'x' $(id) | tee".
Proof.
  destruct (construct_command_value_verbatim json_tool_config hostile_args
              "python -m json.tool" "Indentation Width" []
              ["Test Choice (Demo)"; "Sort Keys"; "Tab"; "No Indent";
               "Compact"; "Infile"; "Outfile"]
              (PStr "4; rm -rf ~ 'x' $(id) | tee"))
    as [text [-> ->]].
  - reflexivity.
  - reflexivity.
  - reflexivity.
  - reflexivity.
  - reflexivity.
  - discriminate.
  - vm_compute. reflexivity.
Defined.

(** C8. An argument whose parsed value has the text [True], the boolean
    as well as the string a user typed or chose, adds its flag alone: the
    loop step appends the flag part and nothing for the value, and so
    does the whole command line. *)
Theorem construct_command_true_flag_only (config : ConfigParser)
    (args : gmap string PyVal) (base section : string)
    (l1 l2 : list string) (v : PyVal) :
  defaults config !! "command" = Some base →
  truthy (dict_get args SHOW_COMMAND_HELP (PBool false)) = false →
  sections config = l1 ++ section :: l2 →
  args !! section = Some v →
  py_format v = "True" →
  (v = PBool true ∨ v = PStr "True")
  ∧ (∀ cmd, append_section config args cmd section
            = Ok (cmd +:+ Spec.flag_part config section))
  ∧ construct_command config args
    = Ok (base +:+ Spec.contributions config args l1
          +:+ Spec.flag_part config section
          +:+ Spec.contributions config args l2).
Proof.
  intros Hbase Hhelp Hsec Hv Hfmt.
  assert (Hc : Spec.contribution config args section
               = Spec.flag_part config section).
  { unfold Spec.contribution, Spec.value_part.
    rewrite Hv, (py_format_True_truthy _ Hfmt), decide_True by done.
    apply str_app_nil_r. }
  split; [by apply py_format_True|]. split.
  - intros cmd. rewrite append_section_contribution, Hc; [done|].
    rewrite Hsec. apply middle_elem_of.
  - rewrite (construct_command_contributions _ _ _ Hbase Hhelp), Hsec.
    by rewrite contributions_split, Hc.
Qed.

Lemma construct_command_true_flag_only_witness :
  construct_command json_tool_config typed_True_args
  = Ok "python -m json.tool --indent".
Proof.
  destruct (construct_command_true_flag_only json_tool_config typed_True_args
              "python -m json.tool" "Indentation Width" []
              ["Test Choice (Demo)"; "Sort Keys"; "Tab"; "No Indent";
               "Compact"; "Infile"; "Outfile"]
              (PStr "True"))
    as (_ & _ & ->).
  - reflexivity.
  - reflexivity.
  - reflexivity.
  - reflexivity.
  - reflexivity.
  - vm_compute. reflexivity.
Defined.

(** C9. An argument whose parsed value is false for Python ([False],
    [None], an empty string or an empty list; a missing key reads as
    [None]) is left out: the loop step returns the command line as it
    got it, and the whole command line is the one built from the other
    sections alone. *)
Theorem construct_command_falsy_omitted (config : ConfigParser)
    (args : gmap string PyVal) (base section : string)
    (l1 l2 : list string) :
  defaults config !! "command" = Some base →
  truthy (dict_get args SHOW_COMMAND_HELP (PBool false)) = false →
  sections config = l1 ++ section :: l2 →
  (args !! section = None ∨
   args !! section = Some (PBool false) ∨ args !! section = Some PNone ∨
   args !! section = Some (PStr "") ∨ args !! section = Some (PList [])) →
  (∀ cmd, append_section config args cmd section = Ok cmd)
  ∧ construct_command config args
    = for_each (append_section config args) base (l1 ++ l2)
  ∧ construct_command config args
    = Ok (base +:+ Spec.contributions config args l1
          +:+ Spec.contributions config args l2).
Proof.
  intros Hbase Hhelp Hsec Hfalsy.
  assert (Hc : Spec.contribution config args section = "").
  { unfold Spec.contribution.
    destruct Hfalsy as [->|[->|[->|[->| ->]]]]; reflexivity. }
  assert (Hsub : l1 ++ l2 ⊆ sections config).
  { rewrite Hsec. apply middle_subseteq. }
  split; [|split].
  - intros cmd. rewrite append_section_contribution, Hc.
    + by rewrite str_app_nil_r.
    + rewrite Hsec. apply middle_elem_of.
  - rewrite (construct_command_contributions _ _ _ Hbase Hhelp), Hsec.
    rewrite (for_each_append_section _ _ _ _ Hsub).
    by rewrite contributions_split, contributions_app, Hc.
  - rewrite (construct_command_contributions _ _ _ Hbase Hhelp), Hsec.
    by rewrite contributions_split, Hc.
Qed.

Lemma construct_command_falsy_omitted_witness :
  construct_command json_tool_config cleared_args
  = Ok "python -m json.tool a.json".
Proof.
  destruct (construct_command_falsy_omitted json_tool_config cleared_args
              "python -m json.tool" "Outfile"
              ["Indentation Width"; "Test Choice (Demo)"; "Sort Keys"; "Tab";
               "No Indent"; "Compact"; "Infile"] [])
    as (_ & _ & ->).
  - reflexivity.
  - reflexivity.
  - reflexivity.
  - right. right. right. left. reflexivity.
  - vm_compute. reflexivity.
Defined.

(** C10. When the show-command-help option is selected, the command that
    is run is the base command, a space and the configured help flag, and
    it is the same command whatever the other parsed values are. *)
Theorem construct_and_run_command_help (env : Env) (config : ConfigParser)
    (args : gmap string PyVal) (base help_flag : string) :
  defaults config !! "command" = Some base →
  defaults config !! "help_flag" = Some help_flag →
  truthy (dict_get args SHOW_COMMAND_HELP (PBool false)) = true →
  construct_command config args = Ok ((base +:+ " ") +:+ help_flag)
  ∧ (∀ w, construct_and_run env config args w
          = run_command env ((base +:+ " ") +:+ help_flag) w)
  ∧ (∀ args' w,
       truthy (dict_get args' SHOW_COMMAND_HELP (PBool false)) = true →
       construct_and_run env config args' w = construct_and_run env config args w).
Proof.
  intros Hbase Hflag Hhelp.
  assert (Hcmd : ∀ a, truthy (dict_get a SHOW_COMMAND_HELP (PBool false)) = true →
                      construct_command config a = Ok ((base +:+ " ") +:+ help_flag)).
  { intros a Ha. unfold construct_command, dict_item.
    rewrite Hbase. simpl. rewrite Ha, Hflag. reflexivity. }
  assert (Hrun : ∀ a w, truthy (dict_get a SHOW_COMMAND_HELP (PBool false)) = true →
                 construct_and_run env config a w
                 = run_command env ((base +:+ " ") +:+ help_flag) w).
  { intros a w Ha. unfold construct_and_run. rewrite (Hcmd a Ha).
    unfold mbind, IO_bind, lift, mret, IO_ret.
    destruct (run_command env ((base +:+ " ") +:+ help_flag) w) as [[z|e] w'];
      reflexivity. }
  split; [by apply Hcmd|]. split.
  - intros w. by apply Hrun.
  - intros args' w Ha'.
    by rewrite (Hrun args' w Ha'), (Hrun args w Hhelp).
Qed.

Lemma construct_and_run_command_help_witness :
  construct_command json_tool_config help_args = Ok "python -m json.tool --help".
Proof.
  apply (construct_and_run_command_help example_env json_tool_config help_args
           "python -m json.tool" "--help"); reflexivity.
Defined.

(* ================================================================== *)
(** * The process runner *)

(** A library call that raises ends the statement it stands in; one that
    returns lets the script go on. *)
Lemma io_lift_bind {A B : Type} (r : result A) (f : A → IO B) (w : World) :
  (lift r ≫= f) w
  = match r with
    | Ok a => f a w
    | Raise e => (Raise e, w)
    end.
Proof. unfold mbind, IO_bind, lift. by destruct r. Qed.

Lemma print_eq (env : Env) (line : string) (w : World) :
  print env line w
  = match stdout_write env line with
    | Ok _ => (Ok (), {| files := files w;
                         console := console w ++ [line];
                         dialogs := dialogs w |})
    | Raise e => (Raise e, w)
    end.
Proof. reflexivity. Qed.

(** The loop over the output lines, when no [print] of it raises. *)
Lemma for_each_io_print (env : Env) (f : string → string) (lines : list string)
    (w w' : World) (u : unit) :
  for_each_io (λ _ line, print env (f line)) () lines w = (Ok u, w') →
  w' = {| files := files w;
          console := console w ++ (f <$> lines);
          dialogs := dialogs w |}.
Proof.
  revert w. induction lines as [|line lines IH]; intros w; simpl.
  - intros [= _ <-]. rewrite app_nil_r. by destruct w.
  - unfold mbind, IO_bind. rewrite print_eq.
    destruct (stdout_write env (f line)) as [[]|e]; [|discriminate].
    intros Hrest. apply IH in Hrest as ->. simpl.
    by rewrite <- app_assoc.
Qed.

(** A run of [run_command] that returns: the process was spawned, every
    line went to the console, and the value is the wait status. *)
Lemma run_command_Ok (env : Env) (cmd : string) (w w' : World) (retval : Z) :
  run_command env cmd w = (Ok retval, w') →
  ∃ proc,
    popen env cmd (files w) = Ok proc
    ∧ retval = proc_wait proc
    ∧ w' = {| files := proc_files proc;
              console :=
                console w ++ ["Running: " +:+ cmd]
                ++ (Str.rstrip <$> proc_stdout proc) ++ [status_line proc];
              dialogs := dialogs w |}.
Proof.
  unfold run_command, mbind, IO_bind, spawn. rewrite print_eq.
  destruct (stdout_write env ("Running: " +:+ cmd)) as [[]|e]; [|discriminate].
  simpl. destruct (popen env cmd (files w)) as [proc|e]; [|discriminate].
  destruct (for_each_io (λ _ line, print env (Str.rstrip line)) ()
              (proc_stdout proc) _) as [[[]|e] w1] eqn:Hlines; [|discriminate].
  apply for_each_io_print in Hlines as ->. rewrite print_eq. simpl.
  fold (status_line proc).
  destruct (stdout_write env (status_line proc)) as [[]|e]; [|discriminate].
  unfold mret, IO_ret. intros [= <- <-]. exists proc.
  split; [done|]. split; [done|]. by rewrite <- !app_assoc.
Qed.

(** When the command line is built, [construct_and_run] is the run of it. *)
Lemma construct_and_run_eq (env : Env) (config : ConfigParser)
    (args : gmap string PyVal) (cmd : string) (w : World) :
  construct_command config args = Ok cmd →
  construct_and_run env config args w = run_command env cmd w.
Proof.
  intros Hcmd. unfold construct_and_run. rewrite Hcmd.
  unfold mbind, IO_bind, lift, mret, IO_ret.
  by destruct (run_command env cmd w) as [[z|e] w'].
Qed.

(** C4. The process runner reports the exit status of the command it
    runs. A run of [run_command] that returns has spawned the process,
    has announced the command, has printed each output line (without its
    trailing blanks) and the status line, and returns the wait status of
    the process. When [main] gets as far as that, it ends by [sys.exit]
    with just that status, which is the exit status of the application
    exactly when it lies between 0 and 255. *)
Theorem run_command_exit_status (env : Env) :
  (∀ cmd w retval w',
     run_command env cmd w = (Ok retval, w') →
     ∃ proc,
       popen env cmd (files w) = Ok proc
       ∧ retval = proc_wait proc
       ∧ console w'
         = console w ++ ["Running: " +:+ cmd]
           ++ (Str.rstrip <$> proc_stdout proc) ++ [status_line proc])
  ∧ (∀ w config w1 args w2 cmd retval w3,
       load_config env w = (Ok config, w1) →
       build_arg_parser env config w1 = (Ok args, w2) →
       construct_command config args = Ok cmd →
       run_command env cmd w2 = (Ok retval, w3) →
       main env w = (Raise (SystemExit retval), w3)
       ∧ (exit_status (SystemExit retval) = retval ↔ 0 ≤ retval < 256)).
Proof.
  split.
  - intros cmd w retval w' Hrun.
    destruct (run_command_Ok env cmd w w' retval Hrun) as (proc & Hp & Hr & ->).
    by exists proc.
  - intros w config w1 args w2 cmd retval w3 Hload Hparse Hcmd Hrun.
    split.
    + unfold main, try_except, mbind, IO_bind.
      by rewrite Hload, Hparse, (construct_and_run_eq _ _ _ cmd _ Hcmd), Hrun.
    + simpl. split.
      * intros <-. by apply Z.mod_pos_bound.
      * intros Hrange. by apply Z.mod_small.
Qed.

Lemma run_command_exit_status_witness :
  main example_env empty_world
  = (Raise (SystemExit 3),
     {| files := files (snd (load_config example_env empty_world));
        console :=
          ["Running: python -m json.tool --sort-keys a.json out.json";
           "{"; "}"; status_line {| proc_stdout := []; proc_wait := 3;
                                    proc_elapsed := "0.01"; proc_files := ∅ |}];
        dialogs := dialogs (snd (load_config example_env empty_world)) |})
  ∧ exit_status (SystemExit 3) = 3.
Proof.
  destruct (run_command_exit_status example_env) as [_ Hmain].
  destruct (Hmain empty_world json_tool_config
              (snd (load_config example_env empty_world))
              example_namespace
              (snd (load_config example_env empty_world))
              "python -m json.tool --sort-keys a.json out.json"
              3
              (snd (run_command example_env
                      "python -m json.tool --sort-keys a.json out.json"
                      (snd (load_config example_env empty_world)))))
    as (Hexit & Hstatus).
  - vm_compute. reflexivity.
  - vm_compute. reflexivity.
  - vm_compute. reflexivity.
  - vm_compute. reflexivity.
  - split; [|apply Hstatus; lia]. rewrite Hexit. vm_compute. reflexivity.
Defined.

(** C4, the statement as given: a subprocess that a signal kills has a
    negative wait status, which [sys.exit] takes, and which is not the
    exit status of the application. *)
Lemma run_command_negative_status :
  fst (run_command killed_env
         "python -m json.tool --sort-keys a.json out.json"
         (snd (load_config killed_env empty_world)))
  = Ok (-9)
  ∧ fst (main killed_env empty_world) = Raise (SystemExit (-9))
  ∧ exit_status (SystemExit (-9)) = 247
  ∧ exit_status (SystemExit (-9)) ≠ -9.
Proof. vm_compute. repeat split; discriminate. Qed.

(* ================================================================== *)
(** * The schema loader *)

Lemma app_not_nil (s : string) (c : ascii) : s +:+ String c "" ≠ "".
Proof. destruct s; [discriminate|]. rewrite str_app_cons. discriminate. Qed.

Lemma app_last_inj (s t : string) (c d : ascii) :
  s +:+ String c "" = t +:+ String d "" → c = d.
Proof.
  revert t. induction s as [|a s IH]; intros [|b t]; rewrite ?str_app_cons;
    rewrite ?str_app_nil_l; intros H.
  - by injection H.
  - injection H as _ H. symmetry in H. by apply app_not_nil in H.
  - injection H as _ H. by apply app_not_nil in H.
  - injection H as _ H. by apply IH in H.
Qed.

(** The ini file and the icon file have different names. *)
Lemma ini_file_name_not_icon (env : Env) :
  script_parent env +:+ "/config_icon.png" ≠ ini_file_name env.
Proof.
  unfold ini_file_name. intros H.
  change "/config_icon.png" with ("/config_icon.pn" +:+ "g") in H.
  change ".ini" with (".in" +:+ "i") in H.
  rewrite <- !str_app_assoc in H.
  apply app_last_inj in H. discriminate H.
Qed.

(** The default text holds no [__PYTHON__] to replace. *)
Lemma default_ini_file_replace (stem : string) :
  Str.replace "__PYTHON__" stem DEFAULT_INI_FILE = DEFAULT_INI_FILE.
Proof. vm_compute. reflexivity. Qed.

Lemma set_default_icon_files (env : Env) (w : World) (path : string) :
  path ≠ script_parent env +:+ "/config_icon.png" →
  ∃ w', set_default_icon env w = (Ok (), w')
        ∧ files w' !! path = files w !! path.
Proof.
  intros Hne. unfold set_default_icon, mbind, IO_bind, path_exists. simpl.
  destruct (bool_decide _); simpl.
  - eauto.
  - eexists. split; [reflexivity|]. simpl. by rewrite lookup_insert_ne.
Qed.

(** C5. The schema loader creates a default configuration file exactly
    when the ini file named after the script is absent: in that case the
    built-in default text is written to it, the user is told, and that text
    is what is read; when the file exists its contents stay as they are,
    nothing is announced about it, and they are what is read. *)
Theorem load_config_default_file (env : Env) (w : World) :
  (files w !! ini_file_name env = None →
   ∃ w', load_config env w = (read_file env DEFAULT_INI_FILE, w')
         ∧ files w' !! ini_file_name env = Some DEFAULT_INI_FILE
         ∧ ShowInfo "Script Notice"
             (ini_file_name env +:+ " does not exist, Generated a default file")
           ∈ dialogs w')
  ∧ (∀ text,
       files w !! ini_file_name env = Some text →
       ∃ w', load_config env w = (read_file env text, w')
             ∧ files w' !! ini_file_name env = Some text
             ∧ (ShowInfo "Script Notice"
                  (ini_file_name env +:+ " does not exist, Generated a default file")
                ∈ dialogs w' →
                ShowInfo "Script Notice"
                  (ini_file_name env +:+ " does not exist, Generated a default file")
                ∈ dialogs w)).
Proof.
  pose proof (ini_file_name_not_icon env) as Hicon.
  split.
  - intros Hnone. unfold load_config, mbind, IO_bind, path_exists.
    rewrite Hnone. simpl.
    rewrite default_ini_file_replace.
    set (w1 := {| files := <[ini_file_name env := DEFAULT_INI_FILE]> (files w);
                  console := console w;
                  dialogs := dialogs w ++ [ShowInfo "Script Notice"
                    (ini_file_name env +:+ " does not exist, Generated a default file")] |}).
    destruct (set_default_icon_files env w1 (ini_file_name env)) as (w2 & Hset & Hfiles);
      [done|].
    assert (Hdia : dialogs w1 `prefix_of` dialogs w2).
    { revert Hset. unfold set_default_icon, mbind, IO_bind, path_exists. simpl.
      destruct (bool_decide _); simpl; intros [= <-]; simpl.
      - done.
      - by apply prefix_app_r. }
    rewrite Hset. unfold open_read. rewrite Hfiles. simpl.
    rewrite lookup_insert_eq. unfold lift.
    exists w2. split; [done|]. split.
    + rewrite Hfiles. simpl. by rewrite lookup_insert_eq.
    + destruct Hdia as [k ->]. simpl. apply elem_of_app. left.
      apply elem_of_app. right. by left.
  - intros text Hsome. unfold load_config, mbind, IO_bind, path_exists.
    rewrite Hsome. simpl.
    destruct (set_default_icon_files env w (ini_file_name env)) as (w2 & Hset & Hfiles);
      [done|].
    rewrite Hset. unfold open_read. rewrite Hfiles, Hsome. unfold lift.
    exists w2. split; [done|]. split; [by rewrite Hfiles|].
    revert Hset. unfold set_default_icon, mbind, IO_bind, path_exists. simpl.
    destruct (bool_decide _); simpl; intros [= <-]; simpl; [done|].
    intros [Hin|Hin]%elem_of_app; [done|].
    apply list_elem_of_singleton in Hin. injection Hin as Hin.
    change " does not exist, Generated a default file"
      with (" does not exist, Generated a default fil" +:+ "e") in Hin.
    change "Replace by another icon if you wish"
      with ("Replace by another icon if you wis" +:+ "h") in Hin.
    rewrite <- !str_app_assoc in Hin.
    apply app_last_inj in Hin. discriminate Hin.
Qed.

Lemma load_config_default_file_witness :
  fst (load_config example_env empty_world) = Ok json_tool_config
  ∧ files (snd (load_config example_env empty_world)) !! "gucli.ini"
    = Some DEFAULT_INI_FILE
  ∧ files (snd (load_config example_env custom_ini_world)) !! "gucli.ini"
    = Some "[root]".
Proof.
  destruct (load_config_default_file example_env empty_world) as [Habsent _].
  destruct (load_config_default_file example_env custom_ini_world) as [_ Hpresent].
  destruct Habsent as (w1 & -> & Hfile & _); [reflexivity|].
  destruct (Hpresent "[root]") as (w2 & -> & Hfile2 & _); [reflexivity|].
  split; [reflexivity|]. split; [exact Hfile|exact Hfile2].
Defined.

(* ================================================================== *)
(** * The argument-schema compiler *)

Lemma with_dialogs_nil (w : World) : with_dialogs w [] = w.
Proof. destruct w. unfold with_dialogs. simpl. by rewrite app_nil_r. Qed.

Lemma with_dialogs_app (w : World) (l1 l2 : list Dialog) :
  with_dialogs (with_dialogs w l1) l2 = with_dialogs w (l1 ++ l2).
Proof. unfold with_dialogs. simpl. by rewrite app_assoc. Qed.

Lemma select_parser_group_cases (config : ConfigParser) (section : string)
    (mutex_group_dict : gmap string nat) (parser : Parser)
    (proxy : gmap string string) :
  getitem config section = Ok proxy →
  select_parser_group config section mutex_group_dict parser
  = match Spec.mutex_id config section with
    | None => Ok (GlobalParser, mutex_group_dict, parser)
    | Some m =>
        match mutex_group_dict !! m with
        | Some g => Ok (MutexGroup g, mutex_group_dict, parser)
        | None =>
            Ok (MutexGroup (parser_groups parser),
                <[m := parser_groups parser]> mutex_group_dict,
                snd (add_mutually_exclusive_group parser))
        end
    end.
Proof.
  intros Hget. unfold select_parser_group, Spec.mutex_id. rewrite Hget. simpl.
  destruct (proxy !! "mutex") as [m|]; [|done]. simpl.
  destruct (decide (m ≠ "")) as [Hm|Hm].
  - rewrite bool_decide_eq_true_2 by done.
    destruct (mutex_group_dict !! m) as [g|] eqn:Hg; simpl.
    + unfold dict_item. by rewrite Hg.
    + unfold dict_item. by rewrite lookup_insert_eq.
  - by rewrite bool_decide_eq_false_2.
Qed.

Lemma declared_choices_eq (proxy : gmap string string) :
  Spec.declared_choices proxy
  = match parse_choices (proxy_get proxy "choices" "Yes, No") with
    | [] => None
    | ch :: chs => Some (PList (ch :: chs))
    end.
Proof. unfold Spec.declared_choices. by rewrite parse_choices_items. Qed.

Lemma invalid_type_notices_one (config : ConfigParser) (section : string)
    (proxy : gmap string string) :
  getitem config section = Ok proxy →
  invalid_type_notices config [section]
  = match Spec.arg_type_of (proxy_get proxy "type" "boolean") with
    | Some _ => []
    | None =>
        [Spec.invalid_type_notice section (proxy_get proxy "type" "boolean")]
    end.
Proof.
  intros Hget. unfold invalid_type_notices. simpl. rewrite Hget.
  apply app_nil_r.
Qed.

Lemma add_argument_call (env : Env) (parser : Parser) (config : ConfigParser)
    (mutex_group_dict : gmap string nat) (section : string)
    (proxy : gmap string string) (w : World) :
  getitem config section = Ok proxy →
  ∃ name kwargs item mutex_group_dict' parser1 w1,
    select_parser_group config section mutex_group_dict parser
    = Ok (item, mutex_group_dict', parser1)
    ∧ add_argument env parser config mutex_group_dict section w
      = match container_add_argument env item name kwargs parser1 with
        | Ok parser' => (Ok (parser', mutex_group_dict'), w1)
        | Raise e => (Raise e, w1)
        end
    ∧ w1 = with_dialogs w (invalid_type_notices config [section])
    ∧ name = (if decide ("_positional" = proxy_get proxy "flag" "_positional")
              then section else proxy_get proxy "flag" "_positional")
    ∧ kwargs !! "dest"
      = (if decide ("_positional" = proxy_get proxy "flag" "_positional")
         then None else Some (PStr section))
    ∧ kwargs !! "default" = Some (opt_val (proxy !! "default"))
    ∧ Spec.type_parameters_ok proxy section kwargs (dialogs w) (dialogs w1).
Proof.
  intros Hget. unfold add_argument, Spec.type_parameters_ok.
  rewrite (invalid_type_notices_one _ _ _ Hget).
  generalize (container_add_argument env). intros add.
  unfold mbind at 1, IO_bind at 1, lift at 1. rewrite Hget.
  rewrite (select_parser_group_cases _ _ _ _ _ Hget).
  rewrite declared_choices_eq.
  generalize (proxy_get proxy "type" "boolean"). intros ty.
  generalize (proxy_get proxy "help"
         (section +:+ " " +:+ proxy_get proxy "flag" "_positional" +:+
          " (" +:+ ty +:+ ") defaults to " +:+
          String Str.dquote (py_format (opt_val (proxy !! "default")) +:+
                             String Str.dquote ""))). intros help.
  unfold Spec.arg_type_of.
  repeat case_decide; subst; run_io.
  all: destruct (decide ("_positional" = proxy_get proxy "flag" "_positional"));
       destruct (Spec.mutex_id config section) as [m|];
       [destruct (mutex_group_dict !! m)| |destruct (mutex_group_dict !! m)|]; simpl.
  all: try destruct (parse_choices (proxy_get proxy "choices" "Yes, No")); simpl.
  all: eexists _, _, _, _, _, _; split; [reflexivity|]; split; [reflexivity|].
  all: split; [|simpl; repeat split; try done].
  all: first [reflexivity | symmetry; apply with_dialogs_nil].
Qed.

(** What [item.add_argument] returns is what argparse says of the call. *)
Lemma container_add_argument_eq (env : Env) (item : Container) (name : string)
    (kwargs : gmap string PyVal) (parser : Parser) :
  container_add_argument env item name kwargs parser
  = match item_add_argument env parser item name kwargs with
    | Ok _ => Ok (record_argument item name kwargs parser)
    | Raise e => Raise e
    end.
Proof.
  unfold container_add_argument.
  by destruct (item_add_argument env parser item name kwargs) as [[]|e].
Qed.

Lemma select_parser_group_arguments (config : ConfigParser) (section : string)
    (mutex_group_dict mutex_group_dict' : gmap string nat) (parser parser1 : Parser)
    (item : Container) (proxy : gmap string string) :
  getitem config section = Ok proxy →
  select_parser_group config section mutex_group_dict parser
  = Ok (item, mutex_group_dict', parser1) →
  parser_arguments parser1 = parser_arguments parser
  ∧ parser_description parser1 = parser_description parser.
Proof.
  intros Hget. rewrite (select_parser_group_cases _ _ _ _ _ Hget).
  destruct (Spec.mutex_id config section) as [m|];
    [destruct (mutex_group_dict !! m)|]; intros [= <- <- <-]; done.
Qed.

(** A call of [add_argument] that returns has added one argument. *)
Lemma add_argument_Ok (env : Env) (parser parser' : Parser)
    (config : ConfigParser) (mutex_group_dict mutex_group_dict' : gmap string nat)
    (section : string) (w w' : World) :
  add_argument env parser config mutex_group_dict section w
  = (Ok (parser', mutex_group_dict'), w') →
  ∃ proxy name kwargs item parser1,
    getitem config section = Ok proxy
    ∧ select_parser_group config section mutex_group_dict parser
      = Ok (item, mutex_group_dict', parser1)
    ∧ item_add_argument env parser1 item name kwargs = Ok ()
    ∧ parser' = record_argument item name kwargs parser1
    ∧ w' = with_dialogs w (invalid_type_notices config [section])
    ∧ name = (if decide ("_positional" = proxy_get proxy "flag" "_positional")
              then section else proxy_get proxy "flag" "_positional")
    ∧ kwargs !! "dest"
      = (if decide ("_positional" = proxy_get proxy "flag" "_positional")
         then None else Some (PStr section))
    ∧ kwargs !! "default" = Some (opt_val (proxy !! "default"))
    ∧ Spec.type_parameters_ok proxy section kwargs (dialogs w) (dialogs w').
Proof.
  intros Hadd. destruct (getitem config section) as [proxy|e] eqn:Hget.
  - destruct (add_argument_call env parser config mutex_group_dict section proxy w Hget)
      as (name & kwargs & item & dict1 & parser1 & w1
          & Hsel & Hcall & Hw & Hname & Hdest & Hdefault & Hty).
    rewrite Hcall, container_add_argument_eq in Hadd.
    destruct (item_add_argument env parser1 item name kwargs) as [[]|e] eqn:Hlib;
      [|discriminate Hadd].
    injection Hadd as <- <- <-.
    by exists proxy, name, kwargs, item, parser1.
  - revert Hadd. unfold add_argument, mbind at 1, IO_bind at 1, lift at 1.
    rewrite Hget. discriminate.
Qed.

(** C2. The argument-schema compiler supports exactly seven argument
    types. For a section of the configuration [add_argument] ends by the
    call [item.add_argument(name, **kwargs)] on the container that
    [select_parser_group] gives, and what the call does is what
    [add_argument] does: when argparse takes the argument the parser
    holds it, and when argparse raises so does [add_argument]. The
    keywords of the call follow the declared type: [boolean] gives the
    action [store_true], [string] the action [store], [integer] the
    widget [IntegerField], [file] the widget [MultiFileChooser] with one
    or more values, [save] the widget [FileSaver], [dir] the widget
    [DirChooser], [choice] the action [store] with the declared choices
    (no choices keyword when the declared list is empty). Clean items
    written with a comma and a blank between them are the choices passed,
    and a section without a [choices] option has the choices [Yes] and
    [No]. A section whose view holds no type is treated as [boolean]. A
    type outside the seven is not taken: the section is reported as
    having an invalid type and falls back to [boolean]; the seven raise
    no such notice. *)
Theorem add_argument_types (env : Env) (parser : Parser) (config : ConfigParser)
    (mutex_group_dict : gmap string nat) (section : string)
    (proxy : gmap string string) (w : World) :
  getitem config section = Ok proxy →
  ∃ item name kwargs mutex_group_dict' parser1 w1,
    select_parser_group config section mutex_group_dict parser
    = Ok (item, mutex_group_dict', parser1)
    ∧ add_argument env parser config mutex_group_dict section w
      = match item_add_argument env parser1 item name kwargs with
        | Ok _ =>
            (Ok (record_argument item name kwargs parser1, mutex_group_dict'), w1)
        | Raise e => (Raise e, w1)
        end
    ∧ match Spec.arg_type_of (proxy_get proxy "type" "boolean") with
      | Some t =>
          kwargs !! "action" = Some (Spec.action_of t)
          ∧ kwargs !! "widget" = Some (Spec.widget_of t)
          ∧ kwargs !! "nargs" = Spec.nargs_of t
          ∧ kwargs !! "choices"
            = match t with
              | Spec.Choice => Spec.declared_choices proxy
              | _ => None
              end
          ∧ dialogs w1 = dialogs w
      | None =>
          kwargs !! "action" = Some (PStr "store_true")
          ∧ kwargs !! "widget" = Some PNone
          ∧ kwargs !! "nargs" = None
          ∧ kwargs !! "choices" = None
          ∧ dialogs w1
            = dialogs w
              ++ [Spec.invalid_type_notice section
                    (proxy_get proxy "type" "boolean")]
      end
    ∧ (proxy !! "type" = None →
       Spec.arg_type_of (proxy_get proxy "type" "boolean") = Some Spec.Boolean)
    ∧ (is_Some (Spec.arg_type_of (proxy_get proxy "type" "boolean")) ↔
       proxy_get proxy "type" "boolean"
       ∈ ["boolean"; "string"; "integer"; "file"; "dir"; "save"; "choice"])
    ∧ (∀ items,
         proxy !! "type" = Some "choice" →
         proxy !! "choices" = Some (String.concat ", " items) →
         Forall Spec.clean_item items →
         kwargs !! "choices"
         = match items with
           | [] => None
           | _ => Some (PList items)
           end)
    ∧ (proxy !! "type" = Some "choice" →
       proxy !! "choices" = None →
       kwargs !! "choices" = Some (PList ["Yes"; "No"])).
Proof.
  intros Hget.
  destruct (add_argument_call env parser config mutex_group_dict section proxy w Hget)
    as (name & kwargs & item & dict' & parser1 & w1
        & Hsel & Hadd & _ & _ & _ & _ & Hty).
  exists item, name, kwargs, dict', parser1, w1.
  split; [exact Hsel|]. split.
  { rewrite Hadd, container_add_argument_eq.
    by destruct (item_add_argument env parser1 item name kwargs) as [[]|e]. }
  split; [exact Hty|]. split; [|split; [|split]].
  - intros Hnone. unfold proxy_get. by rewrite Hnone.
  - unfold Spec.arg_type_of.
    repeat case_decide; split; intros H'; try (by eauto);
      try (by destruct H' as [? [=]]);
      repeat (apply elem_of_cons in H' as [H'|H']; [done|]);
      try (by apply elem_of_nil in H');
      rewrite !elem_of_cons; auto 10.
  - intros items Htype Hchoices Hclean.
    unfold Spec.type_parameters_ok, proxy_get in Hty. rewrite Htype in Hty.
    destruct Hty as (_ & _ & _ & -> & _).
    rewrite declared_choices_eq. unfold proxy_get. rewrite Hchoices. simpl.
    rewrite (parse_choices_concat items Hclean). by destruct items.
  - intros Htype Hchoices.
    unfold Spec.type_parameters_ok, proxy_get in Hty. rewrite Htype in Hty.
    destruct Hty as (_ & _ & _ & -> & _).
    rewrite declared_choices_eq. unfold proxy_get. by rewrite Hchoices.
Qed.

Lemma add_argument_types_witness :
  ∃ item name kwargs mutex_group_dict' parser1 w1,
    add_argument example_env (GooeyParser "") json_tool_config ∅
      "Test Choice (Demo)" empty_world
    = match item_add_argument example_env parser1 item name kwargs with
      | Ok _ =>
          (Ok (record_argument item name kwargs parser1, mutex_group_dict'), w1)
      | Raise e => (Raise e, w1)
      end
    ∧ kwargs !! "action" = Some (PStr "store")
    ∧ kwargs !! "widget" = Some PNone
    ∧ kwargs !! "choices" = Some (PList ["One"; "Two"; "Three"]).
Proof.
  destruct (add_argument_types example_env (GooeyParser "") json_tool_config ∅
              "Test Choice (Demo)"
              (<["flag" := "--test"]> (<["type" := "choice"]>
                 (<["help" := "Test choices: For completeness. Do not set.
for json.tool to work, this flag should not be set"]>
                    (<["choices" := "One, Two, Three"]> ∅)))
               ∪ _defaults json_tool_config)
              empty_world eq_refl)
    as (item & name & kwargs & d & p & w1 & _ & Hadd & Hty & _ & _ & Hitems & _).
  change (Spec.arg_type_of _) with (Some Spec.Choice) in Hty.
  destruct Hty as (Haction & Hwidget & _).
  exists item, name, kwargs, d, p, w1.
  split; [exact Hadd|]. split; [exact Haction|]. split; [exact Hwidget|].
  apply (Hitems ["One"; "Two"; "Three"]); [reflexivity..|].
  repeat constructor; discriminate.
Defined.

(** [select_parser_group] keeps the groups and the dictionary in step, and
    sends the section's argument where its mutex id says. *)
Lemma select_parser_group_inv (config : ConfigParser) (section : string)
    (mutex_group_dict mutex_group_dict' : gmap string nat) (parser parser1 : Parser)
    (item : Container) (proxy : gmap string string)
    (name : string) (kwargs : gmap string PyVal) :
  getitem config section = Ok proxy →
  Spec.one_group_per_id parser mutex_group_dict →
  select_parser_group config section mutex_group_dict parser
  = Ok (item, mutex_group_dict', parser1) →
  Spec.one_group_per_id (record_argument item name kwargs parser1)
    mutex_group_dict'
  ∧ mutex_group_dict ⊆ mutex_group_dict'
  ∧ Spec.in_container config mutex_group_dict'
      {| arg_container := item; arg_name := name; arg_kwargs := kwargs |} section
  ∧ dom mutex_group_dict'
    = dom mutex_group_dict
      ∪ match Spec.mutex_id config section with
        | Some m => {[m]}
        | None => ∅
        end.
Proof.
  intros Hget (Hlt & Hinj & Hsize).
  rewrite (select_parser_group_cases _ _ _ _ _ Hget).
  unfold Spec.in_container, Spec.one_group_per_id. simpl.
  destruct (Spec.mutex_id config section) as [m|] eqn:Hm; simpl.
  - destruct (mutex_group_dict !! m) as [g|] eqn:Hg; intros [= <- <- <-]; simpl.
    + split; [done|]. split; [done|]. split; [by eauto|].
      apply elem_of_dom_2 in Hg. rewrite (comm_L (∪)).
      symmetry. apply subseteq_union_1_L. by apply singleton_subseteq_l.
    + split; [|split; [|split]].
      * split; [|split].
        -- intros m' g' [[-> <-]|[_ Hm']]%lookup_insert_Some; [lia|].
           apply Hlt in Hm'. lia.
        -- intros m1 m2 g' [[<- <-]|[Hne1 H1]]%lookup_insert_Some
             [[<- Heq]|[Hne2 H2]]%lookup_insert_Some; try done.
           ++ apply Hlt in H2. lia.
           ++ apply Hlt in H1. lia.
           ++ by apply (Hinj m1 m2 g').
        -- rewrite map_size_insert_None by done. by rewrite Hsize.
      * by apply insert_subseteq.
      * exists (parser_groups parser). by rewrite lookup_insert_eq.
      * rewrite dom_insert_L. apply (comm_L (∪)).
  - intros [= <- <- <-]. split; [done|]. split; [done|]. split; [done|].
    by rewrite union_empty_r_L.
Qed.

Lemma in_container_weaken (config : ConfigParser)
    (d1 d2 : gmap string nat) (a : Argument) (section : string) :
  d1 ⊆ d2 → Spec.in_container config d1 a section →
  Spec.in_container config d2 a section.
Proof.
  intros Hsub. unfold Spec.in_container.
  destruct (Spec.mutex_id config section) as [m|]; [|done].
  intros (g & Hg & Hc). exists g. split; [|done].
  by apply (lookup_weaken d1 d2).
Qed.

(** The loop over the sections, when argparse takes every argument: it
    adds one argument per section in order, keeps one group per mutex id,
    and shows the notices of the sections with an invalid type. *)
Lemma add_arguments_loop (env : Env) (config : ConfigParser)
    (names : list string) :
  ∀ (parser parser' : Parser) (mutex_group_dict mutex_group_dict' : gmap string nat)
    (w w' : World),
    for_each_io
      (λ '(parser, mutex_group_dict) section,
         add_argument env parser config mutex_group_dict section)
      (parser, mutex_group_dict) names w
    = (Ok (parser', mutex_group_dict'), w') →
    Spec.one_group_per_id parser mutex_group_dict →
    ∃ added,
      parser_arguments parser' = parser_arguments parser ++ added
      ∧ parser_description parser' = parser_description parser
      ∧ Forall2 (λ a section,
                   Spec.in_container config mutex_group_dict' a section
                   ∧ Spec.declared_for_section config a section)
          added names
      ∧ Spec.one_group_per_id parser' mutex_group_dict'
      ∧ mutex_group_dict ⊆ mutex_group_dict'
      ∧ dom mutex_group_dict'
        = dom mutex_group_dict ∪ list_to_set (omap (Spec.mutex_id config) names)
      ∧ w' = with_dialogs w (invalid_type_notices config names).
Proof.
  induction names as [|section names IH]; intros parser parser' dict dict' w w'.
  - simpl. intros [= <- <- <-] Hinv. exists []. rewrite app_nil_r.
    repeat split; try done; try apply Hinv.
    + by rewrite union_empty_r_L.
    + symmetry. apply with_dialogs_nil.
  - simpl. unfold mbind, IO_bind.
    destruct (add_argument env parser config dict section w)
      as [[[parser2 dict1]|e] w1] eqn:Hadd; [|discriminate].
    intros Hloop Hinv.
    destruct (add_argument_Ok _ _ _ _ _ _ _ _ _ Hadd)
      as (proxy & name & kwargs & item & parser1
          & Hget & Hsel & _ & -> & -> & Hname & Hdest & Hdefault & _).
    destruct (select_parser_group_arguments _ _ _ _ _ _ _ _ Hget Hsel)
      as [Hargs1 Hdesc1].
    destruct (select_parser_group_inv _ _ _ _ _ _ _ _ name kwargs Hget Hinv Hsel)
      as (Hinv1 & Hsub1 & Hcont1 & Hdom1).
    destruct (IH _ _ _ _ _ _ Hloop Hinv1)
      as (added & Hargs & Hdesc & Hall & Hinv' & Hsub' & Hdom' & ->).
    exists ({| arg_container := item; arg_name := name; arg_kwargs := kwargs |}
            :: added).
    split.
    { rewrite Hargs. simpl. rewrite Hargs1. by rewrite <- app_assoc. }
    split; [by rewrite Hdesc|].
    split.
    { constructor; [|done]. split.
      - by apply (in_container_weaken config dict1 dict').
      - exists proxy. split; [done|]. simpl. rewrite Hname, Hdest.
        split; [|done]. by case_decide. }
    split; [done|]. split; [by etrans|]. split.
    + rewrite Hdom', Hdom1. simpl.
      destruct (Spec.mutex_id config section) as [m|].
      * rewrite list_to_set_cons. symmetry. apply (assoc_L (∪)).
      * by rewrite union_empty_r_L.
    + rewrite with_dialogs_app. f_equal.
      unfold invalid_type_notices. simpl. by rewrite app_nil_r.
Qed.

(** C3. All sections that declare one mutex-group id are added to one
    mutually exclusive group, for a configuration whose arguments
    argparse takes. [select_parser_group] creates the group when it meets
    an id the dictionary does not hold, and looks it up by id when the
    dictionary holds it; a section without an id (no mutex option in its
    view, or an empty one) is added to the parser itself. After a loop
    over the sections that returns, every argument sits in the container
    of its section's id, no two ids share a group, and the parser holds
    exactly one group per id declared. *)
Theorem mutex_group_per_id (config : ConfigParser) :
  (∀ section proxy mutex_group_dict parser,
     getitem config section = Ok proxy →
     select_parser_group config section mutex_group_dict parser
     = match Spec.mutex_id config section with
       | None => Ok (GlobalParser, mutex_group_dict, parser)
       | Some m =>
           match mutex_group_dict !! m with
           | Some g => Ok (MutexGroup g, mutex_group_dict, parser)
           | None =>
               Ok (MutexGroup (parser_groups parser),
                   <[m := parser_groups parser]> mutex_group_dict,
                   snd (add_mutually_exclusive_group parser))
           end
       end)
  ∧ (∀ env description w parser mutex_group_dict w',
       add_arguments env config (GooeyParser description) ∅ w
       = (Ok (parser, mutex_group_dict), w') →
       Forall2
         (λ a section,
            match Spec.mutex_id config section with
            | Some m =>
                ∃ g, mutex_group_dict !! m = Some g
                     ∧ arg_container a = MutexGroup g
            | None => arg_container a = GlobalParser
            end)
         (parser_arguments parser) (sections config)
       ∧ (∀ m1 m2 g,
            mutex_group_dict !! m1 = Some g → mutex_group_dict !! m2 = Some g →
            m1 = m2)
       ∧ parser_groups parser = size mutex_group_dict
       ∧ dom mutex_group_dict
         =@{gset string} list_to_set (omap (Spec.mutex_id config) (sections config))).
Proof.
  split.
  { intros section proxy dict parser Hget.
    by apply (select_parser_group_cases _ _ _ _ proxy). }
  intros env description w parser dict w' Hloop.
  assert (Hinv0 : Spec.one_group_per_id (GooeyParser description) ∅).
  { split; [|split]; [|done..]. intros m g Hm. by rewrite lookup_empty in Hm. }
  destruct (add_arguments_loop env config (sections config) _ _ _ _ _ _ Hloop Hinv0)
    as (added & Hargs & _ & Hall & Hinv & _ & Hdom & _).
  simpl in Hargs. rewrite Hargs.
  destruct Hinv as (_ & Hinj & Hsize).
  split; [|split; [done|split; [done|]]].
  - eapply Forall2_impl; [exact Hall|]. by intros a section [Hc _].
  - rewrite Hdom, dom_empty_L. apply union_empty_l_L.
Qed.

Lemma mutex_group_per_id_witness :
  ∃ parser w',
    add_arguments example_env json_tool_config (GooeyParser "") ∅ empty_world
    = (Ok (parser, <["IndentSpaceOrTab" := 0%nat]> ∅), w')
    ∧ parser_groups parser = 1%nat
    ∧ arg_container <$> parser_arguments parser
      = [MutexGroup 0; GlobalParser; GlobalParser; MutexGroup 0; MutexGroup 0;
         MutexGroup 0; GlobalParser; GlobalParser].
Proof.
  destruct (mutex_group_per_id json_tool_config) as [_ Hgroups].
  pose (r := add_arguments example_env json_tool_config (GooeyParser "") ∅
               empty_world).
  pose (parser := match fst r with
                  | Ok (p, _) => p
                  | Raise _ => GooeyParser ""
                  end).
  destruct (Hgroups example_env "" empty_world parser
              (<["IndentSpaceOrTab" := 0%nat]> ∅) (snd r))
    as (_ & _ & Hsize & _); [vm_compute; reflexivity|].
  exists parser, (snd r).
  split; [vm_compute; reflexivity|].
  split; [rewrite Hsize; vm_compute; reflexivity|vm_compute; reflexivity].
Defined.

(** C3, the statement as given: argparse refuses an argument without a
    flag in a mutually exclusive group, so the section of such a
    configuration is added to no group, and the compiler raises. *)
Lemma mutex_group_refused :
  Spec.mutex_id positional_mutex_config "Input" = Some "io"
  ∧ select_parser_group positional_mutex_config "Input" ∅ (GooeyParser "tool")
    = Ok (MutexGroup 0, <["io" := 0%nat]> ∅,
          snd (add_mutually_exclusive_group (GooeyParser "tool")))
  ∧ add_arguments example_env positional_mutex_config (GooeyParser "tool") ∅
      empty_world
    = (Raise (LibraryError "ValueError"), empty_world)
  ∧ fst (declare_arguments example_env positional_mutex_config empty_world)
    = Raise (LibraryError "ValueError").
Proof. vm_compute. repeat split. Qed.

(* ================================================================== *)
(** * More on the command assembler *)

Lemma for_each_ext {A B : Type} (f g : B → A → result B) (l : list A) (acc : B) :
  (∀ b x, x ∈ l → f b x = g b x) →
  for_each f acc l = for_each g acc l.
Proof.
  revert acc. induction l as [|x l IH]; intros acc Hext; simpl; [done|].
  rewrite (Hext acc x) by by left.
  destruct (g acc x) as [acc'|e]; simpl; [|done].
  apply IH. intros b y Hy. apply Hext. by right.
Qed.

(** X1. The assembled command depends on the parsed arguments only through
    the keys that are section titles and the key of the help option: two
    dictionaries that agree there give the same command line or the same
    error. *)
Theorem construct_command_other_keys (config : ConfigParser)
    (args args' : gmap string PyVal) :
  (∀ key, key ∈ sections config ∨ key = SHOW_COMMAND_HELP →
          args !! key = args' !! key) →
  construct_command config args = construct_command config args'.
Proof.
  intros Hagree. unfold construct_command, dict_get.
  rewrite (Hagree SHOW_COMMAND_HELP) by by right.
  destruct (dict_item (defaults config) "command") as [cmd|e]; simpl; [|done].
  destruct (truthy (default (PBool false) (args' !! SHOW_COMMAND_HELP))); [done|].
  apply for_each_ext. intros b section Hin.
  unfold append_section, dict_get, dict_item.
  by rewrite (Hagree section) by by left.
Qed.


(** X3. Whatever the parsed arguments are, an assembled command line begins
    with the base command of the configuration. *)
Theorem construct_command_base_prefix (config : ConfigParser)
    (args : gmap string PyVal) (cmd : string) :
  construct_command config args = Ok cmd →
  ∃ base rest, defaults config !! "command" = Some base ∧ cmd = base +:+ rest.
Proof.
  intros Hcmd.
  destruct (defaults config !! "command") as [base|] eqn:Hbase.
  - exists base.
    destruct (truthy (dict_get args SHOW_COMMAND_HELP (PBool false))) eqn:Hhelp.
    + revert Hcmd. unfold construct_command, dict_item. rewrite Hbase. simpl.
      rewrite Hhelp.
      destruct (defaults config !! "help_flag") as [h|]; simpl; [|discriminate].
      intros [= <-]. exists (" " +:+ h). split; [done|]. apply str_app_assoc.
    + rewrite (construct_command_contributions _ _ _ Hbase Hhelp) in Hcmd.
      injection Hcmd as <-. eauto.
  - revert Hcmd. unfold construct_command, dict_item. by rewrite Hbase.
Qed.

Lemma construct_command_base_prefix_witness :
  ∃ base rest,
    defaults json_tool_config !! "command" = Some base
    ∧ "python -m json.tool --indent" = base +:+ rest.
Proof.
  apply (construct_command_base_prefix json_tool_config typed_True_args).
  vm_compute. reflexivity.
Defined.

(** X4. [select_parser_group] settles at once: called again for the same
    section on the dictionary and the parser it left, it returns the same
    container and changes neither. *)
Theorem select_parser_group_again (config : ConfigParser) (section : string)
    (mutex_group_dict mutex_group_dict' : gmap string nat)
    (parser parser' : Parser) (item : Container) :
  select_parser_group config section mutex_group_dict parser
  = Ok (item, mutex_group_dict', parser') →
  select_parser_group config section mutex_group_dict' parser'
  = Ok (item, mutex_group_dict', parser').
Proof.
  destruct (getitem config section) as [proxy|e] eqn:Hget.
  - rewrite !(select_parser_group_cases _ _ _ _ _ Hget).
    destruct (Spec.mutex_id config section) as [m|]; [|by intros [= <- <- <-]].
    destruct (mutex_group_dict !! m) as [g|] eqn:Hg; intros [= <- <- <-].
    + by rewrite Hg.
    + by rewrite lookup_insert_eq.
  - unfold select_parser_group. rewrite Hget. discriminate.
Qed.

Lemma select_parser_group_again_witness :
  select_parser_group json_tool_config "Tab" (<["IndentSpaceOrTab" := 0%nat]> ∅)
    (snd (add_mutually_exclusive_group (GooeyParser "")))
  = Ok (MutexGroup 0, <["IndentSpaceOrTab" := 0%nat]> ∅,
        snd (add_mutually_exclusive_group (GooeyParser ""))).
Proof.
  apply (select_parser_group_again json_tool_config "Tab" ∅ _ (GooeyParser "")).
  vm_compute. reflexivity.
Defined.

(* ================================================================== *)
(** * More on the argument-schema compiler *)

(** [declare_arguments] checks the command first: without one it raises
    [KeyError] before any section is compiled, so no notice is shown. *)
Lemma declare_arguments_no_command (env : Env) (config : ConfigParser)
    (w : World) :
  defaults config !! "command" = None →
  declare_arguments env config w = (Raise (KeyError "command"), w).
Proof.
  intros Hnone. unfold declare_arguments, mbind, IO_bind, lift, dict_item.
  by rewrite Hnone.
Qed.

(** What [declare_arguments] has done when it returns. *)
Lemma declare_arguments_Ok (env : Env) (config : ConfigParser) (w w' : World)
    (parser : Parser) (mutex_group_dict : gmap string nat) :
  declare_arguments env config w = (Ok (parser, mutex_group_dict), w') →
  ∃ base added,
    defaults config !! "command" = Some base
    ∧ w' = with_dialogs w (invalid_type_notices config (sections config))
    ∧ parser_description parser = dict_get (defaults config) "about" base
    ∧ parser_arguments parser
      = added
        ++ match defaults config !! "help_flag" with
           | Some flag => if decide (flag ≠ "") then [help_option] else []
           | None => []
           end
    ∧ Forall2 (Spec.declared_for_section config) added (sections config).
Proof.
  destruct (defaults config !! "command") as [base|] eqn:Hbase;
    [|by rewrite declare_arguments_no_command].
  unfold declare_arguments, mbind at 1, IO_bind at 1, lift at 1, dict_item.
  rewrite Hbase. simpl. unfold mbind at 1, IO_bind at 1, add_arguments.
  destruct (for_each_io _ _ (sections config) w)
    as [[[parser1 dict1]|e] w1] eqn:Hloop; [|discriminate].
  assert (Hinv0 : Spec.one_group_per_id
                    (GooeyParser (dict_get (defaults config) "about" base)) ∅).
  { split; [|split]; [|done..]. intros m g Hm. by rewrite lookup_empty in Hm. }
  destruct (add_arguments_loop env config (sections config) _ _ _ _ _ _ Hloop Hinv0)
    as (added & Hargs & Hdesc & Hall & _ & _ & _ & ->).
  simpl in Hargs, Hdesc.
  assert (Hkeyed : Forall2 (Spec.declared_for_section config) added (sections config)).
  { eapply Forall2_impl; [exact Hall|]. by intros a section [_ Hk]. }
  destruct (defaults config !! "help_flag") as [flag|]; simpl.
  - destruct (decide (flag ≠ "")) as [Hne|Heq].
    + rewrite bool_decide_eq_true_2 by done.
      rewrite io_lift_bind, container_add_argument_eq.
      destruct (item_add_argument env parser1 _ _ _) as [[]|e]; [|discriminate].
      unfold mret, IO_ret. intros [= <- <- <-].
      exists base, added. simpl. rewrite Hargs. by rewrite Hdesc.
    + rewrite bool_decide_eq_false_2 by done.
      unfold mbind, IO_bind, mret, IO_ret. intros [= <- <- <-].
      exists base, added. by rewrite app_nil_r.
  - unfold mbind, IO_bind, mret, IO_ret. intros [= <- <- <-].
    exists base, added. by rewrite app_nil_r.
Qed.

(** X5. [build_arg_parser] up to parsing, when argparse takes every
    argument. The configuration has a command; the parser is described
    by the [about] text, or by the command when there is none; it holds
    one argument for each section, in order, each named as its section
    says, and after them the help option exactly when the configuration has a
    help flag that is not empty; the user sees one notice for each
    section with an invalid type, and nothing else changes. *)
Theorem declare_arguments_shape (env : Env) (config : ConfigParser)
    (w w' : World) (parser : Parser) (mutex_group_dict : gmap string nat) :
  declare_arguments env config w = (Ok (parser, mutex_group_dict), w') →
  ∃ base,
    defaults config !! "command" = Some base
    ∧ w' = with_dialogs w (invalid_type_notices config (sections config))
    ∧ parser_description parser = dict_get (defaults config) "about" base
    ∧ (∀ i section,
         sections config !! i = Some section →
         ∃ a, parser_arguments parser !! i = Some a
              ∧ Spec.declared_for_section config a section)
    ∧ drop (length (sections config)) (parser_arguments parser)
      = match defaults config !! "help_flag" with
        | Some flag => if decide (flag ≠ "") then [help_option] else []
        | None => []
        end.
Proof.
  intros Hdecl.
  destruct (declare_arguments_Ok env config w w' parser mutex_group_dict Hdecl)
    as (base & added & Hbase & Hw & Hdesc & Hargs & Hkeyed).
  exists base. split; [exact Hbase|]. split; [exact Hw|]. split; [exact Hdesc|].
  rewrite Hargs. split.
  - intros i section Hi.
    destruct (Forall2_lookup_r _ _ _ _ _ Hkeyed Hi) as (a & Ha & Hk).
    exists a. split; [by apply lookup_app_l_Some|done].
  - apply Forall2_length in Hkeyed. rewrite <- Hkeyed.
    by rewrite drop_app_length.
Qed.

Lemma declare_arguments_shape_witness :
  ∃ parser mutex_group_dict,
    declare_arguments example_env json_tool_config empty_world
    = (Ok (parser, mutex_group_dict), empty_world)
    ∧ parser_description parser
      = "A json pretty print tool. It Can also validate integrity.
This can be a multi-line help description
Using indentation"
    ∧ drop 8 (parser_arguments parser) = [help_option].
Proof.
  pose (r := declare_arguments example_env json_tool_config empty_world).
  pose (parser := match fst r with
                  | Ok (p, _) => p
                  | Raise _ => GooeyParser ""
                  end).
  destruct (declare_arguments_shape example_env json_tool_config
              empty_world empty_world parser (<["IndentSpaceOrTab" := 0%nat]> ∅))
    as (base & Hbase & _ & Hdesc & _ & Hdrop); [vm_compute; reflexivity|].
  exists parser, (<["IndentSpaceOrTab" := 0%nat]> ∅).
  split; [vm_compute; reflexivity|].
  injection Hbase as <-. split; [exact Hdesc|exact Hdrop].
Defined.

(** X13. The [choices] keyword that [add_argument] passes is never an empty
    list, and its choices are clean: none holds a comma and none begins
    or ends with a blank (stripping it again changes nothing). *)
Theorem add_argument_choices_clean (env : Env) (parser parser' : Parser)
    (config : ConfigParser) (mutex_group_dict mutex_group_dict' : gmap string nat)
    (section : string) (w w' : World) (a : Argument) (l : list string) :
  add_argument env parser config mutex_group_dict section w
  = (Ok (parser', mutex_group_dict'), w') →
  last (parser_arguments parser') = Some a →
  arg_kwargs a !! "choices" = Some (PList l) →
  l ≠ []
  ∧ Forall (λ ch, Str.contains_char ","%char ch = false ∧ Str.strip ch = ch) l.
Proof.
  intros Hadd Hlast Hchoices.
  destruct (add_argument_Ok _ _ _ _ _ _ _ _ _ Hadd)
    as (proxy & name & kwargs & item & parser1
        & _ & _ & _ & -> & _ & _ & _ & _ & Hty).
  simpl in Hlast. rewrite last_snoc in Hlast. injection Hlast as <-.
  simpl in Hchoices. unfold Spec.type_parameters_ok in Hty.
  destruct (Spec.arg_type_of (proxy_get proxy "type" "boolean")) as [t|].
  - destruct Hty as (_ & _ & _ & Hch & _). rewrite Hch in Hchoices.
    destruct t; try discriminate Hchoices.
    rewrite declared_choices_eq in Hchoices.
    pose proof (parse_choices_clean (proxy_get proxy "choices" "Yes, No")) as Hclean.
    destruct (parse_choices (proxy_get proxy "choices" "Yes, No")) as [|ch chs];
      [discriminate Hchoices|].
    injection Hchoices as <-. split; [discriminate|exact Hclean].
  - destruct Hty as (_ & _ & _ & Hch & _). rewrite Hch in Hchoices.
    discriminate Hchoices.
Qed.

Lemma add_argument_choices_clean_witness :
  Forall (λ ch, Str.contains_char ","%char ch = false ∧ Str.strip ch = ch)
    ["One"; "Two"; "Three"].
Proof.
  eapply (add_argument_choices_clean example_env (GooeyParser "") _
            json_tool_config ∅ _ "Test Choice (Demo)" empty_world).
  - vm_compute. reflexivity.
  - vm_compute. reflexivity.
  - vm_compute. reflexivity.
Defined.



(* ================================================================== *)
(** * More on the icon and the schema loader *)

Lemma set_default_icon_present (env : Env) (w : World) :
  is_Some (files w !! icon_file env) → set_default_icon env w = (Ok (), w).
Proof.
  intros Hsome. unfold set_default_icon, mbind, IO_bind, path_exists.
  fold (icon_file env). by rewrite bool_decide_eq_true_2.
Qed.

Lemma set_default_icon_result (env : Env) (w : World) :
  ∃ w',
    set_default_icon env w = (Ok (), w')
    ∧ is_Some (files w' !! icon_file env)
    ∧ (∀ path, path ≠ icon_file env → files w' !! path = files w !! path)
    ∧ console w' = console w.
Proof.
  destruct (files w !! icon_file env) as [icon|] eqn:Hicon.
  - exists w. rewrite set_default_icon_present by (rewrite Hicon; eauto).
    rewrite Hicon. eauto 10.
  - eexists. split.
    { unfold set_default_icon, mbind, IO_bind, path_exists.
      fold (icon_file env). rewrite Hicon. simpl. reflexivity. }
    simpl. split; [rewrite lookup_insert_eq; eauto|].
    split; [|done]. intros path Hne. by rewrite lookup_insert_ne.
Qed.



Lemma load_config_present (env : Env) (w : World) (text : string) :
  files w !! ini_file_name env = Some text →
  is_Some (files w !! icon_file env) →
  load_config env w = (read_file env text, w).
Proof.
  intros Hini Hicon.
  unfold load_config, mbind, IO_bind, path_exists.
  rewrite Hini. simpl. rewrite (set_default_icon_present _ _ Hicon).
  unfold open_read. rewrite Hini. reflexivity.
Qed.

(** X8. The schema loader settles at once and keeps to its two files. Run
    again on the world it left, [load_config] gives the same result and
    changes nothing more: the notices about the generated ini file and
    icon are for the first run only. And it leaves every file other than
    the ini file and the icon as it was, and prints nothing. *)
Theorem load_config_again (env : Env) (w w1 : World) (r : result ConfigParser) :
  load_config env w = (r, w1) →
  load_config env w1 = (r, w1)
  ∧ (∀ path, path ≠ ini_file_name env → path ≠ icon_file env →
             files w1 !! path = files w !! path)
  ∧ console w1 = console w.
Proof.
  pose proof (ini_file_name_not_icon env) as Hne. fold (icon_file env) in Hne.
  unfold load_config at 1. unfold mbind, IO_bind, path_exists.
  destruct (files w !! ini_file_name env) as [text|] eqn:Hini; simpl.
  - destruct (set_default_icon_result env w) as (w' & -> & Hicon & Hframe & Hcon).
    unfold open_read. rewrite (Hframe _ (not_eq_sym Hne)), Hini.
    intros [= <- <-]. split; [|split; [|done]].
    + apply load_config_present; [|done].
      by rewrite (Hframe _ (not_eq_sym Hne)).
    + intros path _ Hpath. by apply Hframe.
  - rewrite default_ini_file_replace.
    match goal with |- context [set_default_icon env ?w0] =>
      destruct (set_default_icon_result env w0)
        as (w' & -> & Hicon & Hframe & Hcon)
    end.
    simpl in Hframe, Hcon.
    unfold open_read. rewrite (Hframe _ (not_eq_sym Hne)), lookup_insert_eq.
    intros [= <- <-]. split; [|split; [|done]].
    + apply load_config_present; [|done].
      by rewrite (Hframe _ (not_eq_sym Hne)), lookup_insert_eq.
    + intros path Hpath1 Hpath2.
      rewrite (Hframe _ Hpath2). by rewrite lookup_insert_ne.
Qed.

Lemma load_config_again_witness :
  load_config example_env (snd (load_config example_env empty_world))
  = load_config example_env empty_world.
Proof.
  destruct (load_config example_env empty_world) as [r w1] eqn:Hload.
  simpl. by apply (load_config_again example_env empty_world w1 r).
Defined.

Lemma rpartition_head_ext (stem ext : string) :
  Str.contains_char "."%char ext = false →
  Str.rpartition_head "."%char (stem +:+ String "."%char ext) = stem.
Proof.
  intros Hext. induction stem as [|a stem IH].
  - rewrite str_app_nil_l. simpl. by rewrite Hext.
  - rewrite str_app_cons.
    change (Str.rpartition_head "."%char (String a (stem +:+ String "."%char ext)))
      with (if Str.contains_char "."%char (stem +:+ String "."%char ext)
            then String a (Str.rpartition_head "."%char (stem +:+ String "."%char ext))
            else EmptyString).
    rewrite contains_char_app, IH.
    assert (Str.contains_char "."%char (String "."%char ext) = true) as ->
      by reflexivity.
    by rewrite orb_true_r.
Qed.

(** X9. The ini file is named after the script: the script's last extension
    is replaced by [.ini], whatever dots the rest of the name holds; a
    script name without a dot gives the bare name [.ini]. *)
Theorem ini_file_name_extension (env : Env) :
  (∀ stem ext,
     Str.contains_char "."%char ext = false →
     script_name env = stem +:+ "." +:+ ext →
     ini_file_name env = stem +:+ ".ini")
  ∧ (Str.contains_char "."%char (script_name env) = false →
     ini_file_name env = ".ini").
Proof.
  unfold ini_file_name. split.
  - intros stem ext Hext ->.
    change ("." +:+ ext) with (String "."%char ext).
    by rewrite rpartition_head_ext.
  - intros Hnone. destruct (script_name env) as [|a s]; [done|].
    simpl in *. apply orb_false_elim in Hnone as [_ Hs]. by rewrite Hs.
Qed.

Lemma ini_file_name_extension_witness :
  ini_file_name example_env = "gucli.ini".
Proof.
  apply (proj1 (ini_file_name_extension example_env) "gucli" "pyw"); reflexivity.
Defined.

(* ================================================================== *)
(** * The whole run *)


(** X11. A configuration without a command stops [main] before any section is
    compiled: the error window reports [KeyError] for [command], no notice
    about a section is shown, nothing is run and nothing is printed. *)
Theorem main_no_command (env : Env) (w w1 : World) (config : ConfigParser) :
  load_config env w = (Ok config, w1) →
  defaults config !! "command" = None →
  main env w
  = (Raise (KeyError "command"),
     with_dialogs w1 [ShowError "Script Error" (KeyError "command") None]).
Proof.
  intros Hload Hnone.
  unfold main, try_except, mbind at 1, IO_bind at 1. rewrite Hload.
  unfold mbind at 1, IO_bind at 1, build_arg_parser, mbind at 1, IO_bind at 1.
  rewrite (declare_arguments_no_command _ _ _ Hnone). reflexivity.
Qed.

Lemma main_no_command_witness :
  fst (main no_command_env empty_world) = Raise (KeyError "command")
  ∧ console (snd (main no_command_env empty_world)) = [].
Proof.
  rewrite (main_no_command no_command_env empty_world
             (snd (load_config no_command_env empty_world)) no_command_config).
  - split; reflexivity.
  - vm_compute. reflexivity.
  - reflexivity.
Defined.

(* ================================================================== *)
(** * The import guard *)

Lemma replace_go_quote_cons (a : ascii) (s : string) :
  Str.replace_go (String Str.squote "") "" 0 (String a s)
  = if Ascii.ascii_dec Str.squote a
    then Str.replace_go (String Str.squote "") "" 0 s
    else String a (Str.replace_go (String Str.squote "") "" 0 s).
Proof.
  cbn [Str.replace_go String.prefix String.length Nat.pred].
  destruct (Ascii.ascii_dec Str.squote a); [|done].
  destruct s; reflexivity.
Qed.

Lemma replace_quote_none (s : string) :
  Str.contains_char Str.squote (Str.replace (String Str.squote "") "" s) = false.
Proof.
  unfold Str.replace. induction s as [|a s IH]; [done|].
  rewrite replace_go_quote_cons.
  destruct (Ascii.ascii_dec Str.squote a) as [Ha|Ha]; [exact IH|].
  cbn [Str.contains_char]. rewrite IH, orb_false_r.
  apply bool_decide_eq_false_2. congruence.
Qed.

Lemma replace_quote_same (s : string) :
  Str.contains_char Str.squote s = false →
  Str.replace (String Str.squote "") "" s = s.
Proof.
  unfold Str.replace. induction s as [|a s IH]; [done|].
  cbn [Str.contains_char].
  intros [Ha Hs]%orb_false_elim. apply bool_decide_eq_false in Ha.
  rewrite replace_go_quote_cons.
  destruct (Ascii.ascii_dec Str.squote a) as [Heq|_]; [by destruct Ha|].
  by rewrite IH.
Qed.

Lemma split_whitespace_go_Some (cur s : string) :
  split_whitespace_go (Some cur) s ≠ [].
Proof.
  revert cur. induction s as [|a s IH]; intros cur; simpl; [done|].
  destruct (Str.isspace a); [done|]. apply IH.
Qed.

Lemma split_whitespace_nil (s : string) :
  split_whitespace s = [] ↔ Str.lstrip s = "".
Proof.
  unfold split_whitespace. induction s as [|a s IH]; [done|]. simpl.
  destruct (Str.isspace a); [exact IH|]. split; [|done].
  intros H. by apply split_whitespace_go_Some in H.
Qed.

Lemma replace_quote_without (s : string) :
  Str.replace (String Str.squote "") "" s = Spec.without_char Str.squote s.
Proof.
  unfold Str.replace. induction s as [|a s IH]; [done|].
  rewrite replace_go_quote_cons. cbn [Spec.without_char].
  destruct (Ascii.ascii_dec Str.squote a) as [<-|Hne].
  - by rewrite bool_decide_eq_true_2.
  - rewrite bool_decide_eq_false_2 by congruence. by rewrite IH.
Qed.

(** X14. The handler of a failed import. When the text of the error holds a
    word, the error window names the last word without its single quotes
    as the module to install, and the import error is raised again. When
    the text is empty or all blanks there is no last word: the handler
    fails with [IndexError] and shows no window. *)
Theorem import_failed_window (err_text : string) (w : World) :
  (Str.lstrip err_text = "" →
   @import_failed unit err_text w = (Raise (LibraryError "IndexError"), w))
  ∧ (Str.lstrip err_text ≠ "" →
     ∃ word,
       last (split_whitespace err_text) = Some word
       ∧ Str.contains_char Str.squote (Spec.without_char Str.squote word) = false
       ∧ (Str.contains_char Str.squote word = false →
          Spec.without_char Str.squote word = word)
       ∧ @import_failed unit err_text w
         = (Raise (LibraryError err_text),
            with_dialogs w
              [ShowError "Script Error" (LibraryError err_text)
                 (Some ("Failed to import " +:+ Spec.without_char Str.squote word
                        +:+ ";" +:+ nl
                        +:+ "Please run in CLI:    pip install "
                        +:+ Spec.without_char Str.squote word))])).
Proof.
  split.
  - intros Hblank%split_whitespace_nil.
    unfold import_failed, mbind, IO_bind, lift, list_last_item.
    by rewrite Hblank.
  - intros Hword.
    destruct (last (split_whitespace err_text)) as [word|] eqn:Hlast.
    + exists word. rewrite <- !replace_quote_without.
      split; [done|]. split; [apply replace_quote_none|].
      split; [apply replace_quote_same|].
      unfold import_failed, mbind, IO_bind, lift, list_last_item.
      rewrite Hlast. reflexivity.
    + apply last_None in Hlast. by apply split_whitespace_nil in Hlast.
Qed.

Lemma import_failed_window_witness :
  @import_failed unit "No module named 'gooey'" empty_world
  = (Raise (LibraryError "No module named 'gooey'"),
     {| files := ∅;
        console := [];
        dialogs :=
          [ShowError "Script Error" (LibraryError "No module named 'gooey'")
             (Some "Failed to import gooey;
Please run in CLI:    pip install gooey")] |}).
Proof.
  destruct (import_failed_window "No module named 'gooey'" empty_world)
    as [_ Hword].
  destruct Hword as (word & Hlast & _ & _ & Himport); [discriminate|].
  vm_compute in Hlast. injection Hlast as <-.
  rewrite Himport. vm_compute. reflexivity.
Defined.

(* ================================================================== *)
(** * More on the process runner *)

(** X17. What [run_command] prints and when it stops. A run that returns
    has printed the command, then one line for each output line of the
    process, none with a blank at its end, then the status line; it has
    shown no dialog, and the files are as the process leaves them. When
    the first [print] raises, nothing is run. When the process cannot be
    started, the exception is that of [Popen], and the announcement is
    all that was printed. *)
Theorem run_command_output (env : Env) (cmd : string) (w : World) :
  (∀ retval w',
     run_command env cmd w = (Ok retval, w') →
     ∃ proc lines,
       popen env cmd (files w) = Ok proc
       ∧ console w'
         = console w ++ ["Running: " +:+ cmd] ++ lines ++ [status_line proc]
       ∧ length lines = length (proc_stdout proc)
       ∧ Forall (λ line, Str.rstrip line = line) lines
       ∧ dialogs w' = dialogs w
       ∧ files w' = proc_files proc)
  ∧ (∀ e,
       stdout_write env ("Running: " +:+ cmd) = Raise e →
       run_command env cmd w = (Raise e, w))
  ∧ (∀ e,
       stdout_write env ("Running: " +:+ cmd) = Ok () →
       popen env cmd (files w) = Raise e →
       run_command env cmd w
       = (Raise e, {| files := files w;
                      console := console w ++ ["Running: " +:+ cmd];
                      dialogs := dialogs w |})).
Proof.
  split; [|split].
  - intros retval w' Hrun.
    destruct (run_command_Ok env cmd w w' retval Hrun) as (proc & Hp & _ & ->).
    exists proc, (Str.rstrip <$> proc_stdout proc). simpl.
    split; [done|]. split; [done|]. split; [apply length_fmap|].
    split; [|done]. apply Forall_fmap, Forall_forall.
    intros line _. apply rstrip_rstrip.
  - intros e He. unfold run_command, mbind, IO_bind. rewrite print_eq.
    by rewrite He.
  - intros e Hprint Hpopen.
    unfold run_command, mbind, IO_bind, spawn. rewrite print_eq, Hprint.
    simpl. by rewrite Hpopen.
Qed.

Lemma run_command_output_witness :
  ∃ w',
    run_command example_env "python -m json.tool a.json" empty_world
    = (Ok 3, w')
    ∧ console w'
      = ["Running: python -m json.tool a.json"; "{"; "}";
         status_line {| proc_stdout := []; proc_wait := 3;
                        proc_elapsed := "0.01"; proc_files := ∅ |}].
Proof.
  destruct (run_command_output example_env "python -m json.tool a.json"
              empty_world) as [Hrun _].
  destruct (Hrun 3 (snd (run_command example_env "python -m json.tool a.json"
                           empty_world)))
    as (proc & lines & _ & _ & _ & _ & Hdialogs & _);
    [vm_compute; reflexivity|].
  eexists. split; [vm_compute; reflexivity|].
  vm_compute. reflexivity.
Defined.

Lemma construct_command_other_keys_witness :
  construct_command json_tool_config sort_keys_args
  = construct_command json_tool_config
      (<["Unknown" := PStr "; rm -rf /"]> sort_keys_args).
Proof.
  apply construct_command_other_keys.
  intros key Hkey. rewrite lookup_insert_ne; [done|].
  intros <-. destruct Hkey as [Hin|Heq]; [|discriminate Heq].
  revert Hin. vm_compute. intros H.
  repeat (apply elem_of_cons in H as [H|H]; [discriminate H|]).
  by apply elem_of_nil in H.
Defined.

